(** * mob-signalk-plugin: the man-overboard tracking engine

    A shallow embedding of the Signal K plugin of [src/index.js] (the
    variant that publishes on every position value, track capacity
    [12 * 120]) and of [src/unnamed/part_000] (the variant that also
    subscribes to the heading, track capacity [12 * 60]), followed by
    the properties of the notification state machine, the track buffer,
    the subscription handling and the navigation delta.

    The closure variables of [module.exports] ([mobNotification],
    [onStop], [track], [plugin.unsubscribes]) are the fields of
    [plugin_state]; the Signal K server the plugin talks to through
    [app] is the record [host].  Handlers are written in a state and
    exception monad over the pair of the two. *)

From Stdlib Require Import ZArith QArith Qabs Lia.
From stdpp Require Import base option list strings gmap.

Local Open Scope string_scope.
Local Open Scope list_scope.
Local Open Scope Z_scope.
Set Warnings "-register-all".

(** ** JavaScript values *)

(** Numbers.  A JavaScript number is kept as an exact rational, or
    [NaN]; the results of arithmetic are stored in lowest terms.
    IEEE rounding and the infinities are not represented: the plugin
    only divides by the non-zero constants [Math.PI], [180] and [1000]. *)
Inductive number : Type :=
  | NaN
  | Fin (q : Q).

Definition num_of_Z (z : Z) : number := Fin (inject_Z z).

Definition nsub (a b : number) : number :=
  match a, b with
  | Fin x, Fin y => Fin (Qred (x - y))
  | _, _ => NaN
  end.

Definition nmul (a b : number) : number :=
  match a, b with
  | Fin x, Fin y => Fin (Qred (x * y))
  | _, _ => NaN
  end.

Definition ndiv (a b : number) : number :=
  match a, b with
  | Fin x, Fin y => if Qeq_bool y 0 then NaN else Fin (Qred (x / y))
  | _, _ => NaN
  end.

(** [Math.PI], the double 0x1.921fb54442d18p+1. *)
Definition Math_PI : number := Fin (884279719003555 # 281474976710656).

(** The values carried by deltas and stored in the host's document:
    JSON data, and [undefined].  An object is the list of its
    properties, read by first match. *)
Inductive value : Type :=
  | VUndefined
  | VNull
  | VBool (b : bool)
  | VNum (n : number)
  | VStr (s : string)
  | VObj (props : list (string * value))
  | VArr (items : list value).

Fixpoint assoc (k : string) (props : list (string * value)) : option value :=
  match props with
  | [] => None
  | (k', v) :: rest => if String.eqb k k' then Some v else assoc k rest
  end.

(** ToBoolean, as used by [if (x)], [!x] and [x && y]. *)
Definition ToBoolean (v : value) : bool :=
  match v with
  | VUndefined | VNull => false
  | VBool b => b
  | VNum NaN => false
  | VNum (Fin q) => negb (Qeq_bool q 0)
  | VStr s => negb (String.eqb s "")
  | VObj _ | VArr _ => true
  end.

(** [typeof v != 'undefined'] *)
Definition is_defined (v : value) : bool :=
  match v with
  | VUndefined => false
  | _ => true
  end.

(** [v === s] against a string literal. *)
Definition strict_eq_str (v : value) (s : string) : bool :=
  match v with
  | VStr s' => String.eqb s' s
  | _ => false
  end.

(** [v.k] where [v] is known not to be [null] or [undefined]: the
    property of an object, [undefined] on anything else (none of the
    keys the plugin reads is a property of a primitive's or an array's
    prototype). *)
Definition get (v : value) (k : string) : value :=
  match v with
  | VObj props => default VUndefined (assoc k props)
  | _ => VUndefined
  end.

(** ** Exceptions *)

Inductive exn : Type := TypeError.

(** What a call comes to: it returns a value or raises. *)
Inductive outcome (A : Type) : Type :=
  | Returned (a : A)
  | Raised (e : exn).
Arguments Returned {A} a.
Arguments Raised {A} e.

#[export] Instance outcome_ret : MRet outcome := fun A a => Returned a.

#[export] Instance outcome_bind : MBind outcome := fun A B f o =>
  match o with
  | Returned a => f a
  | Raised e => Raised e
  end.

(** The part of the JavaScript runtime and of the [geolib] package that
    the plugin calls and that is not part of the repository.  The
    functions of geolib raise on the points they do not accept (a
    point whose coordinates are missing, for one). *)
Class Runtime : Type := {
  (** ToNumber on a string, an object or an array (through ToPrimitive) *)
  ToNumber_coerce : value -> number;
  (** [geolib.getDistance(from, to, accuracy)] *)
  getDistance : value -> value -> value -> outcome value;
  (** [geolib.getRhumbLineBearing(origin, dest)], in degrees *)
  getRhumbLineBearing : value -> value -> outcome value;
  (** [geolib.computeDestinationPoint(start, distance, bearing)]; the
      result is an object literal [{latitude, longitude}] *)
  computeDestinationPoint :
    value -> value -> value -> outcome (list (string * value))
}.

(** ToNumber, applied to their operands by [*], [/] and [-]. *)
Definition ToNumber `{RT : Runtime} (v : value) : number :=
  match v with
  | VUndefined => NaN
  | VNull => Fin 0
  | VBool b => if b then Fin 1 else Fin 0
  | VNum n => n
  | _ => ToNumber_coerce v
  end.

(** ** Deltas *)

Record pathValue : Type := PV { path : string; val : value }.

(** [values] and [updates] are optional: the handlers test
    [if (update.values)] and [if (delta.updates)] before iterating. *)
Record update : Type := Update { values : option (list pathValue) }.
Record delta : Type := Delta { updates : option (list update) }.

(** ** The plugin's variables and the host *)

Definition handle : Type := nat.

Inductive feed : Type :=
  | NotificationsMob     (* the subscription of [plugin.start] *)
  | NavigationPosition.  (* the subscription of [startWatchingPosition] *)

Record subscription : Type := Sub { sub_handle : handle; sub_feed : feed }.

(** An element of [track]: [{position: vesselPosition, time: Date.now()}],
    the time in milliseconds. *)
Record sample : Type := Sample { position : value; time : Z }.

(** [let onStop = []], [let track = []], [let mobNotification = null]
    and [plugin.unsubscribes]. *)
Record plugin_state : Type := Plugin {
  mobNotification : value;
  onStop : list handle;
  track : list sample;
  unsubscribes : list handle
}.

(** Modelled from the spec: the Signal K server behind [app], which is
    not under src/.  [doc] is the document store read by
    [app.getSelfPath] and written by [app.handleMessage]; [published]
    logs the calls of [app.handleMessage], oldest first; [subs] are the
    subscriptions the subscription manager delivers to, [fresh] the
    next handle it hands out; [clock] is what [Date.now()] returns. *)
Record host : Type := Host {
  doc : gmap string value;
  published : list delta;
  subs : list subscription;
  fresh : handle;
  clock : Z
}.

Definition world : Type := plugin_state * host.

Definition init : world :=
  (Plugin VNull [] [] [], Host ∅ [] [] 0%nat 0).

(** ** The monad of the handlers: state, and exceptions that keep the
    state reached when they were thrown. *)

Definition M (A : Type) : Type := world -> outcome A * world.

#[export] Instance M_ret : MRet M := fun A a w => (Returned a, w).

#[export] Instance M_bind : MBind M := fun A B f m w =>
  match m w with
  | (Returned a, w') => f a w'
  | (Raised e, w') => (Raised e, w')
  end.

Definition throw {A} (e : exn) : M A := fun w => (Raised e, w).

(** A call that does not touch the plugin or the host, and may raise. *)
Definition lift {A} (o : outcome A) : M A := fun w => (o, w).

Definition read {A} (f : world -> A) : M A := fun w => (Returned (f w), w).

Definition modify_plugin (f : plugin_state -> plugin_state) : M unit :=
  fun w => (Returned tt, (f (fst w), snd w)).

Definition modify_host (f : host -> host) : M unit :=
  fun w => (Returned tt, (fst w, f (snd w))).

(** [xs.forEach(body)] *)
Fixpoint forEach {A} (xs : list A) (body : A -> M unit) : M unit :=
  match xs with
  | [] => mret tt
  | x :: rest => body x ;; forEach rest body
  end.

(** [a && b] on conditions: [b] is evaluated only when [a] holds. *)
Definition and_then (a b : M bool) : M bool :=
  x ← a; if x : bool then b else mret false.

(** [k in v]: a TypeError unless [v] is an object.  The plugin asks for
    the key ["state"], which no array has. *)
Definition has_property (k : string) (v : value) : M bool :=
  match v with
  | VObj props => mret (match assoc k props with Some _ => true | None => false end)
  | VArr _ => mret false
  | _ => throw TypeError
  end.

Definition nullish (v : value) : bool :=
  match v with
  | VUndefined | VNull => true
  | _ => false
  end.

(** [v.k]: a TypeError on [null] and [undefined]. *)
Definition get_checked (v : value) (k : string) : M value :=
  if nullish v then throw TypeError else mret (get v k).

(** Assignments to the plugin's variables. *)
Definition set_mobNotification (v : value) : M unit :=
  modify_plugin (fun p => Plugin v (onStop p) (track p) (unsubscribes p)).
Definition set_onStop (hs : list handle) : M unit :=
  modify_plugin (fun p => Plugin (mobNotification p) hs (track p) (unsubscribes p)).
Definition set_track (t : list sample) : M unit :=
  modify_plugin (fun p => Plugin (mobNotification p) (onStop p) t (unsubscribes p)).
Definition set_unsubscribes (hs : list handle) : M unit :=
  modify_plugin (fun p => Plugin (mobNotification p) (onStop p) (track p) hs).

(** ** The host's primitives *)

(** Modelled from the spec: [app.getSelfPath(p)] (the lookup of
    section 6) reads the document, [undefined] where nothing is stored. *)
Definition getSelfPath (app : host) (p : string) : value :=
  default VUndefined (doc app !! p).

(** Modelled from the spec: what [app.handleMessage] stores for a delta:
    each value under its path, read back as [path + '.value']. *)
Definition store_values (vs : list pathValue) (m : gmap string value)
  : gmap string value :=
  fold_left (fun m pv => <[String.append (path pv) ".value" := val pv]> m) vs m.

Definition store_delta (d : delta) (m : gmap string value) : gmap string value :=
  fold_left (fun m u => store_values (default [] (values u)) m)
            (default [] (updates d)) m.

(** Modelled from the spec: [app.handleMessage(plugin.id, d)], the
    outbound publish of section 6: logged, and stored in the document. *)
Definition handleMessage (d : delta) : M unit :=
  modify_host (fun h =>
    Host (store_delta d (doc h)) (published h ++ [d]) (subs h) (fresh h) (clock h)).

(** The array given to [app.subscriptionmanager.subscribe] to receive the
    unsubscribe function. *)
Inductive handle_list : Type := InOnStop | InUnsubscribes.

(** Modelled from the spec: [app.subscriptionmanager.subscribe(spec,
    unsubscribes, onError, onDelta)] of section 6 and section 9: the
    subscription is open when the call returns and its unsubscribe
    function has been pushed on the array given as second argument.
    The error callback is never called. *)
Definition subscribe (f : feed) (unsub : handle_list) : M unit :=
  fun w =>
    let p := fst w in
    let h := snd w in
    let id := fresh h in
    let h' := Host (doc h) (published h) (subs h ++ [Sub id f]) (S id) (clock h) in
    let p' :=
      match unsub with
      | InOnStop =>
          Plugin (mobNotification p) (onStop p ++ [id]) (track p) (unsubscribes p)
      | InUnsubscribes =>
          Plugin (mobNotification p) (onStop p) (track p) (unsubscribes p ++ [id])
      end in
    (Returned tt, (p', h')).

(** Modelled from the spec: calling the unsubscribe function [f()] of
    handle [id] closes the subscription; nothing is delivered to it
    afterwards (section 5), and calling it again does nothing. *)
Definition close (id : handle) (h : host) : host :=
  Host (doc h) (published h)
       (filter (fun s => sub_handle s <> id) (subs h)) (fresh h) (clock h).

Definition unsubscribe (id : handle) : M unit := modify_host (close id).

(** [Date.now()] *)
Definition Date_now : M Z := read (fun w => clock (snd w)).

(** ** The plugin *)

(** The two source files differ in the guard of the [normal] branch, in
    the position handler and in the capacity of the track. *)
Inductive variant : Type :=
  | IndexJs    (* src/index.js *)
  | Part000.   (* src/unnamed/part_000 *)

(** [track.length > 12 * 120] in src/index.js, [track.length > 12 * 60]
    in src/unnamed/part_000. *)
Definition capacity (vr : variant) : nat :=
  match vr with
  | IndexJs => 12 * 120
  | Part000 => 12 * 60
  end.

(** The delta of five [null] values published by [stopWatchingPosition]
    and returned by the [else] branch of [getMOBDelta]. *)
Definition cleared_values : list pathValue :=
  [ PV "navigation.mob.position" VNull;
    PV "navigation.mob.time" VNull;
    PV "navigation.mob.elapsed" VNull;
    PV "navigation.mob.distance" VNull;
    PV "navigation.mob.bearingTrue" VNull ].

Definition cleared_delta : delta :=
  Delta (Some [ Update (Some cleared_values) ]).

Section Plugin.
Context `{RT : Runtime}.

Definition radsToDeg (radians : value) : value :=
  VNum (ndiv (nmul (ToNumber radians) (Fin 180)) Math_PI).

Definition degsToRad (degrees : value) : value :=
  VNum (nmul (ToNumber degrees) (ndiv Math_PI (Fin 180))).

Definition calc_distance (lat1 lon1 lat2 lon2 : value) : outcome value :=
  getDistance
    (VObj [("latitude", lat1); ("longitude", lon1)])
    (VObj [("latitude", lat2); ("longitude", lon2)])
    (VNum (Fin (1 # 10))).

Definition calc_position_from (app : host) (position heading distance : value)
  : outcome value :=
  point ← computeDestinationPoint position distance (radsToDeg heading);
  mret (VObj point).

(** [computeBowLocation(position, heading)]; it reads [app] from the
    enclosing scope.  The two [app.debug] lines of part_000 only log. *)
Definition computeBowLocation (app : host) (position heading : value)
  : outcome value :=
  if is_defined heading then
    let gps_dist := getSelfPath app "sensors.gps.fromBow.value" in
    if is_defined gps_dist then
      calc_position_from app position heading gps_dist
    else mret position
  else mret position.

(** [getMOBDelta(app, position)].  [bowPosition] and [mobPosition] are
    truthy or object literals where their properties are read, so that
    [get] applies. *)
Definition getMOBDelta (app : host) (position : value) : outcome delta :=
  let mobPosition := getSelfPath app "navigation.mob.position.value" in
  values ←
    (if ToBoolean position && ToBoolean mobPosition then
       let mobTime := getSelfPath app "navigation.mob.time.value" in
       bowPosition ←
         computeBowLocation app position
           (getSelfPath app "navigation.headingTrue.value");
       rhumb ← getRhumbLineBearing bowPosition mobPosition;
       let bearing := degsToRad rhumb in
       distance ←
         calc_distance (get bowPosition "latitude") (get bowPosition "longitude")
                       (get mobPosition "latitude") (get mobPosition "longitude");
       mret
         [ PV "navigation.mob.elapsed"
              (VNum (ndiv (nsub (num_of_Z (clock app)) (ToNumber mobTime))
                          (Fin 1000)));
           PV "navigation.mob.distance" distance;
           PV "navigation.mob.bearingTrue" bearing ]
     else mret cleared_values);
  mret (Delta (Some [ Update (Some values) ])).

(** The throttle of the position handler: "Only record the position
    every 30s", then "Recycle the track".  [cap] is the constant of the
    variant. *)
Definition recordSample (cap : nat) (vesselPosition : value) (now : Z)
    (track : list sample) : list sample :=
  if (length track =? 0)%nat
     || match last track with
        | Some s => time s <? now - 30 * 1000
        | None => false
        end
  then
    let track := track ++ [ Sample vesselPosition now ] in
    if (cap <? length track)%nat then tail track else track
  else track.

Definition stopWatchingPosition : M unit :=
  hs ← read (fun w => onStop (fst w));
  forEach hs unsubscribe ;;
  set_onStop [] ;;
  set_track [] ;;
  handleMessage cleared_delta.

Definition startWatchingPosition : M unit :=
  hs ← read (fun w => onStop (fst w));
  if (0 <? length hs)%nat then mret tt
  else
    mob ← read (fun w => mobNotification (fst w));
    data ← get_checked mob "data";
    pos ← get_checked data "position";
    now ← Date_now;
    handleMessage
      (Delta (Some [ Update (Some
         [ PV "navigation.mob.position" pos;
           PV "navigation.mob.time" (VNum (num_of_Z now)) ]) ])) ;;
    set_track [] ;;
    subscribe NavigationPosition InOnStop.

(** The body of [update.values.forEach((vp) => ...)] in the handler of
    [notifications.mob]. *)
Definition on_notification_value (vr : variant) (vp : pathValue) : M unit :=
  if String.eqb (path vp) "notifications.mob" then
    let idle := mob ← read (fun w => mobNotification (fst w));
                mret (negb (ToBoolean mob)) in
    let active := mob ← read (fun w => mobNotification (fst w));
                  mret (ToBoolean mob) in
    let state_is s := and_then (has_property "state" (val vp))
                               (mret (strict_eq_str (get (val vp) "state") s)) in
    c ← and_then idle (state_is "emergency");
    if c : bool then
      set_mobNotification (val vp) ;;
      startWatchingPosition
    else
      c' ← match vr with
           | IndexJs => and_then active (state_is "normal")
           | Part000 => state_is "normal"
           end;
      if c' : bool then
        stopWatchingPosition ;;
        set_mobNotification VNull
      else mret tt
  else mret tt.

(** The handler given to [subscribe] by [plugin.start]. *)
Definition on_notification (vr : variant) (d : delta) : M unit :=
  match updates d with
  | Some us =>
      forEach us (fun u =>
        match values u with
        | Some vs => forEach vs (on_notification_value vr)
        | None => mret tt
        end)
  | None => mret tt
  end.

(** A loop that assigns a variable declared outside of it
    ([let vesselPosition] in the position handler of part_000). *)
Fixpoint forEach_with {A S} (xs : list A) (s : S) (body : S -> A -> M S) : M S :=
  match xs with
  | [] => mret s
  | x :: rest => s' ← body s x; forEach_with rest s' body
  end.

(** [track.push(...)] under the throttle, on the plugin's [track]; the
    two [Date.now()] of the throttle are one reading of the clock. *)
Definition track_position (vr : variant) (vesselPosition : value) : M unit :=
  now ← Date_now;
  t ← read (fun w => track (fst w));
  set_track (recordSample (capacity vr) vesselPosition now t).

(** The handler given to [subscribe] by [startWatchingPosition], in
    src/index.js: every value of [navigation.position] is published as a
    MOB delta and offered to the track. *)
Definition on_position_index (d : delta) : M unit :=
  match updates d with
  | Some us =>
      forEach us (fun u =>
        match values u with
        | Some vs =>
            forEach vs (fun vp =>
              if String.eqb (path vp) "navigation.position" then
                let vesselPosition := val vp in
                app ← read snd;
                mobDelta ← lift (getMOBDelta app vesselPosition);
                handleMessage mobDelta ;;
                track_position IndexJs vesselPosition
              else mret tt)
        | None => mret tt
        end)
  | None => mret tt
  end.

(** The same handler in src/unnamed/part_000: the values of
    [navigation.position] are offered to the track, and one MOB delta is
    published after the loops, for the last position seen in this delta
    ([undefined] when there was none), if [mobNotification] is set. *)
Definition on_position_part000 (d : delta) : M unit :=
  vesselPosition ←
    match updates d with
    | Some us =>
        forEach_with us VUndefined (fun vesselPosition u =>
          match values u with
          | Some vs =>
              forEach_with vs vesselPosition (fun vesselPosition vp =>
                if String.eqb (path vp) "navigation.position" then
                  track_position Part000 (val vp) ;;
                  mret (val vp)
                else mret vesselPosition)
          | None => mret vesselPosition
          end)
    | None => mret VUndefined
    end;
  mob ← read (fun w => mobNotification (fst w));
  if ToBoolean mob then
    app ← read snd;
    mobDelta ← lift (getMOBDelta app vesselPosition);
    handleMessage mobDelta
  else mret tt.

Definition on_position (vr : variant) : delta -> M unit :=
  match vr with
  | IndexJs => on_position_index
  | Part000 => on_position_part000
  end.

(** [plugin.start]: the subscription to [notifications.mob]. *)
Definition plugin_start : M unit :=
  subscribe NotificationsMob InUnsubscribes.

(** [plugin.stop] *)
Definition plugin_stop : M unit :=
  hs ← read (fun w => unsubscribes (fst w));
  forEach hs unsubscribe ;;
  set_unsubscribes [].

(** ** The host's event loop *)

Definition handler (vr : variant) (f : feed) : delta -> M unit :=
  match f with
  | NotificationsMob => on_notification vr
  | NavigationPosition => on_position vr
  end.

Definition feed_eqb (f g : feed) : bool :=
  match f, g with
  | NotificationsMob, NotificationsMob => true
  | NavigationPosition, NavigationPosition => true
  | _, _ => false
  end.

(** The subscription [s] is one of feed [f]. *)
Definition on_feed (f : feed) (s : subscription) : Prop :=
  feed_eqb (sub_feed s) f = true.

#[export] Instance on_feed_dec f s : Decision (on_feed f s).
Proof. unfold on_feed. apply _. Defined.

(** Modelled from the spec: a delta of feed [f] that the host observes
    at time [now] is handed, in the order of subscription, to the
    handlers of the subscriptions of [f] that are open (section 5: run
    to completion, one delta after the other).  The clock reads [now]
    for the whole delivery. *)
Definition deliver (vr : variant) (f : feed) (now : Z) (d : delta) : M unit :=
  modify_host (fun h => Host (doc h) (published h) (subs h) (fresh h) now) ;;
  ss ← read (fun w => subs (snd w));
  forEach (filter (on_feed f) ss) (fun _ => handler vr f d).

(** What happens to the engine: the framework starts or stops the
    plugin, the host delivers a delta, or another provider writes a
    value (the heading, the GPS offset) into the document. *)
Inductive event : Type :=
  | Start
  | Stop
  | Deliver (f : feed) (now : Z) (d : delta)
  | Put (p : string) (v : value).

Definition step (vr : variant) (e : event) : M unit :=
  match e with
  | Start => plugin_start
  | Stop => plugin_stop
  | Deliver f now d => deliver vr f now d
  | Put p v =>
      modify_host (fun h =>
        Host (<[p := v]> (doc h)) (published h) (subs h) (fresh h) (clock h))
  end.

(** The world after a sequence of events; an exception ends the event
    that raised it and leaves the world as it was then. *)
Definition run (vr : variant) (es : list event) (w : world) : world :=
  fold_left (fun w e => snd (step vr e w)) es w.

End Plugin.

(** * The vocabulary of the properties *)

(** ** Offers to the track *)

(** Offering a sequence of samples, each with its position and the time
    at which it is offered. *)
Definition offer_all (cap : nat) (offers : list sample) (tr : list sample)
  : list sample :=
  fold_left (fun tr o => recordSample cap (position o) (time o) tr) offers tr.

(** The samples of a sequence are eligible one after the other: each is
    offered more than 30 s after the one before. *)
Fixpoint spaced (l : list sample) : Prop :=
  match l with
  | [] => True
  | a :: rest =>
      match rest with
      | [] => True
      | b :: _ => time a < time b - 30 * 1000
      end /\ spaced rest
  end.

(** [spaced], as a test. *)
Fixpoint spacedb (l : list sample) : bool :=
  match l with
  | [] => true
  | a :: rest =>
      match rest with
      | [] => true
      | b :: _ => time a <? time b - 30 * 1000
      end && spacedb rest
  end.

(** [n] samples, one every 30.001 s. *)
Definition every_30001ms (n : nat) : list sample :=
  map (fun i => Sample (VNum (num_of_Z (Z.of_nat i))) (Z.of_nat i * 30001))
      (seq 0 n).

(** ** Subscriptions *)

(** Closing the subscriptions of a list of handles, as
    [hs.forEach((f) => f())] does. *)
Definition close_all (hs : list handle) (h : host) : host :=
  fold_left (fun h id => close id h) hs h.

(** The world in which [startWatchingPosition] leaves [w] when it
    subscribes. *)
Definition started (w : world) : world :=
  let p := fst w in
  let h := snd w in
  let d := Delta (Some [ Update (Some
             [ PV "navigation.mob.position"
                  (get (get (mobNotification p) "data") "position");
               PV "navigation.mob.time" (VNum (num_of_Z (clock h))) ]) ]) in
  (Plugin (mobNotification p) (onStop p ++ [fresh h]) [] (unsubscribes p),
   Host (store_delta d (doc h)) (published h ++ [d])
        (subs h ++ [Sub (fresh h) NavigationPosition]) (S (fresh h)) (clock h)).

(** What the subscription handling depends on. *)
Definition shape (w : world) : list handle * list handle * list subscription * handle :=
  (onStop (fst w), unsubscribes (fst w), subs (snd w), fresh (snd w)).

(** The invariant of the subscription handling: every open position
    subscription has its handle in [onStop] and every open notification
    subscription in [plugin.unsubscribes]; the handles of
    [plugin.unsubscribes] never name a position subscription; handles
    are below the next fresh one; and there is at most one position
    watch. *)
Record Inv (w : world) : Prop := {
  inv_pos : forall s, s ∈ subs (snd w) -> on_feed NavigationPosition s ->
            sub_handle s ∈ onStop (fst w);
  inv_notif : forall s, s ∈ subs (snd w) -> on_feed NotificationsMob s ->
              sub_handle s ∈ unsubscribes (fst w);
  inv_unsub : forall s, s ∈ subs (snd w) -> sub_handle s ∈ unsubscribes (fst w) ->
              on_feed NotificationsMob s;
  inv_fresh_subs : forall s, s ∈ subs (snd w) ->
                   (sub_handle s < fresh (snd w))%nat;
  inv_fresh_unsub : forall h, h ∈ unsubscribes (fst w) -> (h < fresh (snd w))%nat;
  inv_count : (length (filter (on_feed NavigationPosition) (subs (snd w)))
               <= length (onStop (fst w)))%nat;
  inv_one : (length (onStop (fst w)) <= 1)%nat
}.

(** A property of the world kept by every run of [m], whether it
    returns or raises. *)
Definition preserves {A} (P : world -> Prop) (m : M A) : Prop :=
  forall w, P w -> P (snd (m w)).

(** ** Notification values *)

(** [v] is an object whose [state] is the string [s]. *)
Definition has_state (s : string) (v : value) : Prop :=
  exists props, v = VObj props /\ assoc "state" props = Some (VStr s).

(** The notification values the handler can take: objects, whose data
    is neither [undefined] nor [null] when their state is "emergency",
    and arrays. *)
Definition acceptable (v : value) : bool :=
  match v with
  | VObj _ =>
      if strict_eq_str (get v "state") "emergency"
      then negb (nullish (get v "data")) else true
  | VArr _ => true
  | _ => false
  end.

(** Every value of [notifications.mob] in the delta is acceptable. *)
Definition all_acceptable (d : delta) : Prop :=
  Forall (fun u =>
            Forall (fun vp => path vp = "notifications.mob" ->
                              acceptable (val vp) = true)
                   (default [] (values u)))
         (default [] (updates d)).

(** ** A geodesy to run the plugin with *)

Definition nadd (a b : number) : number :=
  match a, b with
  | Fin x, Fin y => Fin (Qred (x + y))
  | _, _ => NaN
  end.

Definition nabs (a : number) : number :=
  match a with
  | Fin x => Fin (Qred (Qabs x))
  | NaN => NaN
  end.

(** The coordinate [k] of a point; a TypeError unless it is a number. *)
Definition coordinate (p : value) (k : string) : outcome number :=
  match get p k with
  | VNum n => Returned n
  | _ => Raised TypeError
  end.

Definition as_number (v : value) : number :=
  match v with
  | VNum n => n
  | _ => NaN
  end.

(** Metres per degree of latitude, for a sphere of radius 6371 km. *)
Definition metres_per_degree : number := Fin 111195.

(** A stand-in for [geolib] on a meridian, to evaluate the plugin on
    concrete inputs.  It raises on a point whose latitude or longitude
    is not a number.  Distances are measured along the meridian and
    the parallel at [metres_per_degree]; a destination point lies due
    north of its start for the bearing 0 and due south for the bearing
    180, and is the start itself for the other bearings; the rhumb-line
    bearing is 0 or 180.  The accuracy of [getDistance] is not used. *)
Definition meridian : Runtime := {|
  ToNumber_coerce := fun _ => NaN;
  getDistance := fun a b _ =>
    lat_a ← coordinate a "latitude";
    lon_a ← coordinate a "longitude";
    lat_b ← coordinate b "latitude";
    lon_b ← coordinate b "longitude";
    mret (VNum (nmul metres_per_degree
                  (nadd (nabs (nsub lat_a lat_b)) (nabs (nsub lon_a lon_b)))));
  getRhumbLineBearing := fun a b =>
    lat_a ← coordinate a "latitude";
    _ ← coordinate a "longitude";
    lat_b ← coordinate b "latitude";
    _ ← coordinate b "longitude";
    mret (match nsub lat_b lat_a with
          | Fin d => if Qle_bool 0 d then VNum (Fin 0) else VNum (Fin 180)
          | NaN => VNum NaN
          end);
  computeDestinationPoint := fun start distance bearing =>
    lat ← coordinate start "latitude";
    lon ← coordinate start "longitude";
    let north :=
      match as_number bearing with
      | Fin b => if Qeq_bool b 0 then as_number distance
                 else if Qeq_bool b 180 then nsub (Fin 0) (as_number distance)
                 else Fin 0
      | NaN => NaN
      end in
    mret [ ("latitude", VNum (nadd lat (ndiv north metres_per_degree)));
           ("longitude", VNum lon) ]
|}.

(** ** Reading a delta *)



(** ** Scenarios *)

Definition position_10_20 : value :=
  VObj [("latitude", VNum (Fin 10)); ("longitude", VNum (Fin 20))].

(** The emergency notification for a person overboard at [P]. *)
Definition emergency_at (P : value) : value :=
  VObj [("state", VStr "emergency"); ("data", VObj [("position", P)])].

(** A delta of one value for [notifications.mob]. *)
Definition notification (v : value) : delta :=
  Delta (Some [ Update (Some [ PV "notifications.mob" v ]) ]).

(** A delta of one value for [navigation.position]. *)
Definition position_delta (v : value) : delta :=
  Delta (Some [ Update (Some [ PV "navigation.position" v ]) ]).

(** The host when its clock reads [now]. *)
Definition at_time (now : Z) (h : host) : host :=
  Host (doc h) (published h) (subs h) (fresh h) now.

(** A position delta that the host observes at a given time. *)
Definition stray (s : Z * delta) : event :=
  Deliver NavigationPosition (fst s) (snd s).

(** The plugin started, then an emergency at [(10, 20)] delivered at
    1000 ms. *)
Definition tracking (vr : variant) : world :=
  run (RT := meridian) vr
    [ Start; Deliver NotificationsMob 1000 (notification (emergency_at position_10_20)) ]
    init.

(** ** Transitions, deltas and the track route *)

(** The world [w] with [mobNotification] set to [v]. *)
Definition with_mob (v : value) (w : world) : world :=
  (Plugin v (onStop (fst w)) (track (fst w)) (unsubscribes (fst w)), snd w).

(** The world in which [stopWatchingPosition] leaves [w]. *)
Definition stopped (w : world) : world :=
  let h := close_all (onStop (fst w)) (snd w) in
  (Plugin (mobNotification (fst w)) [] [] (unsubscribes (fst w)),
   Host (store_delta cleared_delta (doc h)) (published h ++ [cleared_delta])
        (subs h) (fresh h) (clock h)).

(** The delta that [startWatchingPosition] publishes for the MOB
    position [pos] at the time [now]. *)
Definition activation_delta (pos : value) (now : Z) : delta :=
  Delta (Some [ Update (Some
    [ PV "navigation.mob.position" pos;
      PV "navigation.mob.time" (VNum (num_of_Z now)) ]) ]).

(** The values of [navigation.position] in a delta, in the order in
    which the position handlers visit them. *)
Definition position_values (d : delta) : list value :=
  flat_map (fun u =>
              flat_map (fun vp =>
                          if String.eqb (path vp) "navigation.position"
                          then [val vp] else [])
                       (default [] (values u)))
           (default [] (updates d)).

(** The five paths that [stopWatchingPosition] and the [else] branch of
    [getMOBDelta] set to [null], as [app.getSelfPath] reads them. *)
Definition mob_paths : list string :=
  [ "navigation.mob.position.value"; "navigation.mob.time.value";
    "navigation.mob.elapsed.value"; "navigation.mob.distance.value";
    "navigation.mob.bearingTrue.value" ].

(** [res.json(track)] of the route [/getTrack]: the samples as JSON
    objects; JSON has no [undefined] and leaves such a property out. *)
Definition getTrack (w : world) : list value :=
  map (fun s =>
         VObj ((if is_defined (position s) then [("position", position s)] else [])
               ++ [("time", VNum (num_of_Z (time s)))]))
      (track (fst w)).

(** The world [w] with the track [t]. *)
Definition with_track (t : list sample) (w : world) : world :=
  (Plugin (mobNotification (fst w)) (onStop (fst w)) t (unsubscribes (fst w)),
   snd w).

(** Offering the positions [vals] one after the other at the time
    [now]. *)
Definition offer_at (cap : nat) (now : Z) (vals : list value)
    (tr : list sample) : list sample :=
  fold_left (fun tr v => recordSample cap v now tr) vals tr.

(** What [app.handleMessage(plugin.id, d)] does to the host. *)
Definition publish (d : delta) (h : host) : host :=
  Host (store_delta d (doc h)) (published h ++ [d]) (subs h) (fresh h) (clock h).

(** While no event is active there is no handle in [onStop] and the
    track is empty. *)
Definition idle_ok (w : world) : Prop :=
  ToBoolean (mobNotification (fst w)) = false ->
  onStop (fst w) = [] /\ track (fst w) = [].

(** The track is in the order of time, each sample more than 30 s
    after the one before, and within the capacity of the file. *)
Definition track_ok (vr : variant) (w : world) : Prop :=
  spaced (track (fst w)) /\ (length (track (fst w)) <= capacity vr)%nat.

(** The values of [navigation.position] among the values of one
    update. *)
Definition positions_of (vs : list pathValue) : list value :=
  flat_map (fun vp =>
              if String.eqb (path vp) "navigation.position"
              then [val vp] else [])
           vs.

(** What the position handler of src/index.js does with one vessel
    position: if [getMOBDelta] returns, the delta is published and the
    position offered to the track; if it raises, neither happens. *)
Definition index_step `{RT : Runtime} (v : value) (w : world)
  : outcome unit * world :=
  match getMOBDelta (snd w) v with
  | Returned d =>
      (Returned tt,
       (fst (with_track (recordSample (capacity IndexJs) v (clock (snd w))
                                      (track (fst w))) w),
        publish d (snd w)))
  | Raised e => (Raised e, w)
  end.

(** The vessel positions in turn, up to the first that raises. *)
Fixpoint index_run `{RT : Runtime} (vals : list value) (w : world)
  : outcome unit * world :=
  match vals with
  | [] => (Returned tt, w)
  | v :: rest =>
      match index_step v w with
      | (Returned _, w') => index_run rest w'
      | (Raised e, w') => (Raised e, w')
      end
  end.

(** A notification delta that the host observes at a given time. *)
Definition notified (s : Z * delta) : event :=
  Deliver NotificationsMob (fst s) (snd s).

(** * The waypoint plugin

    The first plugin of src/index.js (lines 1 to 220): on an emergency
    it stores a waypoint for the person overboard and, once the host
    has stored it and told the course, makes it the destination; on
    a normal it restores the destination. *)

Module Waypoint.

(** [let mobNotification = null] and [let nextPoint = null]. *)
Record plugin_state : Type := Plugin {
  mobNotification : value;
  nextPoint : value
}.

(** The calls of the plugin into the host. *)
Inductive call : Type :=
  | SetResource (kind id : string) (body : value)
      (* app.resourcesApi.setResource(kind, id, body) *)
  | GetCourse                      (* app.getCourse() *)
  | SetDestination (dest : value)  (* app.setDestination(dest) *)
  | ClearDestination.              (* app.clearDestination() *)

(** The promises of the host that are not settled yet, each with the
    callback that the plugin gave to its [then]. *)
Inductive pending : Type :=
  | ResourceStored (resourceId : string)
      (* setResource(...).then(() => { app.getCourse().then(...) }) *)
  | CourseRead (resourceId : string).
      (* getCourse().then((course) => { nextPoint = ...; app.setDestination(...) }) *)

(** Modelled from the spec: the host behind [app] (section 6, resource
    creation), which is not under src/: the calls it has received,
    oldest first, the promises it has returned and not settled, the
    number of identifiers that [uuidv4] has given out, and the clock
    read by [new Date()]. *)
Record host : Type := Host {
  calls : list call;
  awaiting : list pending;
  uuids : nat;
  clock : Z
}.

Definition world : Type := plugin_state * host.

Definition init : world := (Plugin VNull VNull, Host [] [] 0%nat 0).

(** The monad of the handler, as for the other plugins. *)
Definition W (A : Type) : Type := world -> outcome A * world.

#[export] Instance W_ret : MRet W := fun A a w => (Returned a, w).

#[export] Instance W_bind : MBind W := fun A B f m w =>
  match m w with
  | (Returned a, w') => f a w'
  | (Raised e, w') => (Raised e, w')
  end.

Definition throw {A} (e : exn) : W A := fun w => (Raised e, w).

Definition read {A} (f : world -> A) : W A := fun w => (Returned (f w), w).

Definition modify (f : world -> world) : W unit := fun w => (Returned tt, f w).

Fixpoint forEach {A} (xs : list A) (body : A -> W unit) : W unit :=
  match xs with
  | [] => mret tt
  | x :: rest => body x ;; forEach rest body
  end.

Definition and_then (a b : W bool) : W bool :=
  x ← a; if x : bool then b else mret false.

(** [k in v] *)
Definition has_property (k : string) (v : value) : W bool :=
  match v with
  | VObj props => mret (match assoc k props with Some _ => true | None => false end)
  | VArr _ => mret false
  | _ => throw TypeError
  end.

(** [v.k] *)
Definition get_checked (v : value) (k : string) : W value :=
  if nullish v then throw TypeError else mret (get v k).

Definition set_mobNotification (v : value) : W unit :=
  modify (fun w => (Plugin v (nextPoint (fst w)), snd w)).

Definition set_nextPoint (v : value) : W unit :=
  modify (fun w => (Plugin (mobNotification (fst w)) v, snd w)).

(** Modelled from the spec: a call into the host that returns nothing
    the plugin looks at. *)
Definition invoke (c : call) : W unit :=
  modify (fun w =>
    (fst w, Host (calls (snd w) ++ [c]) (awaiting (snd w)) (uuids (snd w))
                 (clock (snd w)))).

(** Modelled from the spec: a call into the host that returns a promise
    to which the plugin attaches the callback [k] with [then]. *)
Definition invoke_then (c : call) (k : pending) : W unit :=
  modify (fun w =>
    (fst w, Host (calls (snd w) ++ [c]) (awaiting (snd w) ++ [k]) (uuids (snd w))
                 (clock (snd w)))).

Section Plugin.

(** The identifiers that the [uuid] package returns, in the order of
    the calls, and [Date.prototype.toISOString] on a time in
    milliseconds: neither is part of the repository. *)
Variable uuid : nat -> string.
Variable toISOString : Z -> string.

(** [uuidv4()] *)
Definition uuidv4 : W string :=
  fun w =>
    (Returned (uuid (uuids (snd w))),
     (fst w, Host (calls (snd w)) (awaiting (snd w)) (S (uuids (snd w)))
                  (clock (snd w)))).

(** [new Date()], as the time it holds. *)
Definition new_Date : W Z := read (fun w => clock (snd w)).

(** The waypoint of the person overboard. *)
Definition body (timeStamp : Z) (resourceId : string)
    (longitude latitude : value) : value :=
  VObj
    [ ("name", VStr (String.append "POB_" (toISOString timeStamp)));
      ("description", VStr "Person Over Board");
      ("feature",
       VObj
         [ ("type", VStr "Feature");
           ("geometry",
            VObj [ ("type", VStr "Point");
                   ("coordinates", VArr [ longitude; latitude ]) ]);
           ("properties", VObj [ ("timestamp", VStr (toISOString timeStamp)) ]);
           ("id", VStr resourceId) ]);
      ("type", VStr "POB") ].

(** [{ href: '/resources/waypoints/' + resourceId }] *)
Definition href (resourceId : string) : value :=
  VObj [ ("href", VStr (String.append "/resources/waypoints/" resourceId)) ].

(** The body of [update.values.forEach((vp) => ...)]. *)
Definition on_notification_value (vp : pathValue) : W unit :=
  if String.eqb (path vp) "notifications.mob" then
    let idle := mob ← read (fun w => mobNotification (fst w));
                mret (negb (ToBoolean mob)) in
    let active := mob ← read (fun w => mobNotification (fst w));
                  mret (ToBoolean mob) in
    let state_is s := and_then (has_property "state" (val vp))
                               (mret (strict_eq_str (get (val vp) "state") s)) in
    c ← and_then idle (state_is "emergency");
    if c : bool then
      set_mobNotification (val vp) ;;
      resourceId ← uuidv4;
      timeStamp ← new_Date;
      data ← get_checked (val vp) "data";
      position ← get_checked data "position";
      longitude ← get_checked position "longitude";
      data' ← get_checked (val vp) "data";
      position' ← get_checked data' "position";
      latitude ← get_checked position' "latitude";
      invoke_then (SetResource "waypoints" resourceId
                     (body timeStamp resourceId longitude latitude))
                  (ResourceStored resourceId)
    else
      c' ← and_then active (state_is "normal");
      if c' : bool then
        np ← read (fun w => nextPoint (fst w));
        (if ToBoolean np then invoke (SetDestination np)
         else invoke ClearDestination) ;;
        set_mobNotification VNull
      else mret tt
  else mret tt.

(** The handler given to [subscribe] by [plugin.start]. *)
Definition on_notification (d : delta) : W unit :=
  match updates d with
  | Some us =>
      forEach us (fun u =>
        match values u with
        | Some vs => forEach vs on_notification_value
        | None => mret tt
        end)
  | None => mret tt
  end.

(** The callback of [setResource(...).then]. *)
Definition resource_stored (resourceId : string) : W unit :=
  invoke_then GetCourse (CourseRead resourceId).

(** The callback of [getCourse().then], for the course [course]. *)
Definition course_read (resourceId : string) (course : value) : W unit :=
  np ← get_checked course "nextPoint";
  set_nextPoint np ;;
  invoke (SetDestination (href resourceId)).

(** Modelled from the spec: the host fulfils the promise number [n] of
    those awaiting, with the value [result]; the promise is settled and
    its callback runs.  A TypeError in the callback rejects the promise
    that [then] returned, to which nothing is attached. *)
Definition fulfil (n : nat) (result : value) : W unit :=
  fun w =>
    match awaiting (snd w) !! n with
    | Some k =>
        let w' := (fst w, Host (calls (snd w)) (delete n (awaiting (snd w)))
                               (uuids (snd w)) (clock (snd w))) in
        match k with
        | ResourceStored resourceId => resource_stored resourceId w'
        | CourseRead resourceId => course_read resourceId result w'
        end
    | None => (Returned tt, w)
    end.

End Plugin.

End Waypoint.

(** ** Scenarios of the waypoint plugin *)

(** An identifier for every call of [uuidv4], and the ISO form of the
    time 0, to run the waypoint plugin with. *)
Definition some_uuid (n : nat) : string :=
  match n with
  | O => "3f2c6a1e-0000-4000-8000-000000000000"
  | S _ => "3f2c6a1e-0000-4000-8000-000000000001"
  end.

Definition some_iso (t : Z) : string := "1970-01-01T00:00:00.000Z".

(** The waypoint plugin after an emergency at [(10, 20)]. *)
Definition redirecting : Waypoint.world :=
  snd (Waypoint.on_notification_value some_uuid some_iso
         (PV "notifications.mob" (emergency_at position_10_20)) Waypoint.init).

(** * Properties *)

(** ** The track buffer *)

Lemma capacity_pos vr : (1 <= capacity vr)%nat.
Proof. destruct vr; simpl; lia. Qed.

Lemma sample_eta (o : sample) : Sample (position o) (time o) = o.
Proof. now destruct o. Qed.

Lemma recordSample_eligible cap p now tr :
  match last tr with Some s => time s < now - 30 * 1000 | None => True end ->
  recordSample cap p now tr =
    if (cap <? length (tr ++ [Sample p now]))%nat
    then tail (tr ++ [Sample p now]) else tr ++ [Sample p now].
Proof.
  intros H. unfold recordSample.
  destruct (last tr) as [s|] eqn:E.
  - apply Z.ltb_lt in H. rewrite H, orb_true_r. reflexivity.
  - apply last_None in E. subst tr. reflexivity.
Qed.

Lemma recordSample_throttled cap p now tr s :
  last tr = Some s -> now - 30 * 1000 <= time s ->
  recordSample cap p now tr = tr.
Proof.
  intros E H. unfold recordSample. rewrite E.
  destruct tr as [|x tr]; [discriminate|].
  replace (time s <? now - 30 * 1000) with false
    by (symmetry; apply Z.ltb_ge; lia).
  reflexivity.
Qed.

Lemma recordSample_length cap p now tr :
  (length tr <= cap)%nat -> (length (recordSample cap p now tr) <= cap)%nat.
Proof.
  intros H. unfold recordSample.
  destruct (_ || _); [|exact H].
  destruct (cap <? length (tr ++ [Sample p now]))%nat eqn:E.
  - destruct (tr ++ [Sample p now]) as [|x l] eqn:Etr; simpl; [lia|].
    apply (f_equal length) in Etr. rewrite length_app in Etr.
    simpl in Etr. lia.
  - apply Nat.ltb_ge in E. exact E.
Qed.

Lemma offer_all_length cap offers : forall tr,
  (length tr <= cap)%nat -> (length (offer_all cap offers tr) <= cap)%nat.
Proof.
  induction offers as [|o offers IH]; intros tr H; simpl; [exact H|].
  apply IH, recordSample_length, H.
Qed.

Lemma spaced_app_last tr o rest s :
  spaced (tr ++ o :: rest) -> last tr = Some s -> time s < time o - 30 * 1000.
Proof.
  induction tr as [|x tr IH]; simpl; [discriminate|].
  intros [H1 H2] E. destruct tr as [|y tr].
  - simpl in *. injection E as <-. exact H1.
  - apply IH; assumption.
Qed.

Lemma spaced_tail l : spaced l -> spaced (tail l).
Proof. destruct l; simpl; tauto. Qed.

(** From a spaced history, every offer is recorded and the buffer is
    the last [cap] samples of everything offered so far. *)
Lemma offer_all_spaced cap offers : forall tr,
  (length tr <= cap)%nat -> spaced (tr ++ offers) ->
  offer_all cap offers tr =
    drop (length (tr ++ offers) - cap) (tr ++ offers).
Proof.
  induction offers as [|o offers IH]; intros tr Hlen Hsp.
  - simpl. rewrite app_nil_r.
    replace (length tr - cap)%nat with 0%nat by lia. reflexivity.
  - change (offer_all cap (o :: offers) tr)
      with (offer_all cap offers (recordSample cap (position o) (time o) tr)).
    rewrite recordSample_eligible, sample_eta.
    2:{ destruct (last tr) as [s|] eqn:E; [|exact I].
        eapply spaced_app_last; eassumption. }
    assert (Hcons : tr ++ o :: offers = (tr ++ [o]) ++ offers)
      by (rewrite <- app_assoc; reflexivity).
    destruct (cap <? length (tr ++ [o]))%nat eqn:E.
    + apply Nat.ltb_lt in E. rewrite length_app in E. simpl in E.
      destruct (tr ++ [o]) as [|x tr'] eqn:Etr.
      { destruct tr; discriminate. }
      assert (Hl : length tr' = cap).
      { apply (f_equal length) in Etr. rewrite length_app in Etr.
        simpl in Etr. lia. }
      simpl tail. rewrite IH.
      * rewrite Hcons. simpl. rewrite !length_app, Hl.
        replace (S (cap + length offers) - cap)%nat
          with (S (cap + length offers - cap)) by lia.
        reflexivity.
      * lia.
      * rewrite Hcons in Hsp. apply spaced_tail in Hsp. exact Hsp.
    + apply Nat.ltb_ge in E. rewrite IH.
      * rewrite Hcons. reflexivity.
      * exact E.
      * rewrite <- Hcons. exact Hsp.
Qed.

Lemma spacedb_spaced l : spacedb l = true -> spaced l.
Proof.
  induction l as [|a l IH]; simpl; [trivial|].
  intros [H1 H2]%andb_prop. split; [|auto].
  destruct l; [trivial|]. apply Z.ltb_lt, H1.
Qed.

Lemma last_tail_snoc {A} (l : list A) x :
  l <> [] -> last (tail (l ++ [x])) = Some x.
Proof.
  destruct l as [|y l]; [congruence|]. intros _. simpl. apply last_snoc.
Qed.

(** C4, as the code has it.  A sample offered at time [now] is appended
    (and the oldest sample dropped if the capacity is then exceeded)
    when the buffer is empty or the last stored sample is MORE than
    30 s old, [time < now - 30 * 1000]; it is dropped, and the buffer
    left as it is, when the last stored sample is 30 s old or less.
    Samples offered at 0 s, 5 s, 31 s and 35 s leave exactly the samples
    of 0 s and 31 s, in that order. *)
Theorem track_throttle (vr : variant) (p : value) (now : Z) (tr : list sample) :
  ((tr = [] \/ exists s, last tr = Some s /\ 30 * 1000 < now - time s) ->
     recordSample (capacity vr) p now tr =
       (if (capacity vr <? length (tr ++ [Sample p now]))%nat
        then tail (tr ++ [Sample p now]) else tr ++ [Sample p now])
     /\ last (recordSample (capacity vr) p now tr) = Some (Sample p now))
  /\ ((exists s, last tr = Some s /\ now - time s <= 30 * 1000) ->
        recordSample (capacity vr) p now tr = tr)
  /\ (forall p0 p1 p2 p3,
        offer_all (capacity vr)
          [Sample p0 0; Sample p1 5000; Sample p2 31000; Sample p3 35000] []
        = [Sample p0 0; Sample p2 31000]).
Proof.
  split; [|split].
  - intros H.
    assert (E : recordSample (capacity vr) p now tr =
       (if (capacity vr <? length (tr ++ [Sample p now]))%nat
        then tail (tr ++ [Sample p now]) else tr ++ [Sample p now])).
    { apply recordSample_eligible.
      destruct H as [-> | (s & -> & H)]; [exact I | lia]. }
    split; [exact E|]. rewrite E.
    destruct (capacity vr <? length (tr ++ [Sample p now]))%nat eqn:C.
    + apply last_tail_snoc. intros ->.
      apply Nat.ltb_lt in C. simpl in C. pose proof (capacity_pos vr). lia.
    + apply last_snoc.
  - intros (s & E & H). eapply recordSample_throttled; [exact E | lia].
  - intros. destruct vr; reflexivity.
Qed.

Lemma track_throttle_witness :
  recordSample (capacity IndexJs) VNull 30001 [Sample VNull 0]
    = [Sample VNull 0; Sample VNull 30001]
  /\ recordSample (capacity Part000) VNull 29000 [Sample VNull 0]
    = [Sample VNull 0].
Proof.
  split.
  - destruct (track_throttle IndexJs VNull 30001 [Sample VNull 0]) as (H & _).
    destruct H as [H _].
    + right. exists (Sample VNull 0). split; [reflexivity | simpl; lia].
    + exact H.
  - destruct (track_throttle Part000 VNull 29000 [Sample VNull 0]) as (_ & H & _).
    apply H. exists (Sample VNull 0). split; [reflexivity | simpl; lia].
Defined.

(** C4 as the spec words it fails at the boundary: a sample offered
    exactly 30 s after the last stored one is not appended. *)
Lemma sample_at_30s_dropped :
  let tr := [Sample VNull 0] in
  let now := 30 * 1000 in
  (exists s, last tr = Some s /\ now - time s >= 30 * 1000)
  /\ recordSample (capacity IndexJs) VNull now tr = tr
  /\ recordSample (capacity Part000) VNull now tr = tr
  /\ tr <> tr ++ [Sample VNull now].
Proof.
  simpl. split; [|repeat split; discriminate].
  exists (Sample VNull 0). split; [reflexivity | simpl; lia].
Qed.

(** C5.  The buffer never holds more than [capacity] samples, whatever
    is offered; when every offer is eligible the buffer holds the most
    recent [capacity] of them in the order offered, so that after
    [capacity + 1] of them the oldest one, and only it, is gone. *)
Theorem track_capacity (vr : variant) :
  (forall offers tr,
     (length tr <= capacity vr)%nat ->
     (length (offer_all (capacity vr) offers tr) <= capacity vr)%nat)
  /\ (forall offers,
        spaced offers ->
        offer_all (capacity vr) offers [] =
          drop (length offers - capacity vr) offers)
  /\ (forall offers,
        spaced offers -> length offers = S (capacity vr) ->
        offer_all (capacity vr) offers [] = tail offers).
Proof.
  assert (H : forall offers, spaced offers ->
            offer_all (capacity vr) offers [] =
              drop (length offers - capacity vr) offers).
  { intros offers Hsp.
    apply (offer_all_spaced (capacity vr) offers []); [simpl; lia | exact Hsp]. }
  split; [|split].
  - intros offers tr. apply offer_all_length.
  - exact H.
  - intros offers Hsp Hlen. rewrite H by exact Hsp.
    rewrite Hlen. replace (S (capacity vr) - capacity vr)%nat with 1%nat by lia.
    destruct offers; reflexivity.
Qed.

Lemma track_capacity_witness :
  offer_all (capacity Part000) (every_30001ms 721) [] = tail (every_30001ms 721)
  /\ (length (offer_all (capacity IndexJs) (every_30001ms 5) [Sample VNull (-1)])
       <= capacity IndexJs)%nat.
Proof.
  destruct (track_capacity Part000) as (_ & _ & H3).
  destruct (track_capacity IndexJs) as (H1 & _).
  split.
  - apply H3; [apply spacedb_spaced; vm_compute; reflexivity | reflexivity].
  - apply H1. simpl. lia.
Defined.

(** ** Running the monad *)

Lemma bind_run {A B} (m : M A) (f : A -> M B) (w : world) :
  (m ≫= f) w =
    match m w with
    | (Returned a, w') => f a w'
    | (Raised e, w') => (Raised e, w')
    end.
Proof. reflexivity. Qed.

Lemma preserves_bind {A B} P (m : M A) (f : A -> M B) :
  preserves P m -> (forall a, preserves P (f a)) -> preserves P (m ≫= f).
Proof.
  intros Hm Hf w Hw. rewrite bind_run. specialize (Hm w Hw).
  destruct (m w) as [[a|e] w']; simpl in *; [apply Hf, Hm | exact Hm].
Qed.

Lemma preserves_ret {A} P (a : A) : preserves P (mret a).
Proof. intros w Hw. exact Hw. Qed.

Lemma preserves_throw {A} P e : preserves P (@throw A e).
Proof. intros w Hw. exact Hw. Qed.

Lemma preserves_read {A} P (f : world -> A) : preserves P (read f).
Proof. intros w Hw. exact Hw. Qed.

Lemma preserves_lift {A} P (o : outcome A) : preserves P (lift o).
Proof. intros w Hw. exact Hw. Qed.

Lemma preserves_forEach {A} P (xs : list A) body :
  (forall x, preserves P (body x)) -> preserves P (forEach xs body).
Proof.
  intros Hb. induction xs as [|x xs IH]; simpl.
  - apply preserves_ret.
  - apply preserves_bind; [apply Hb | intros _; exact IH].
Qed.

Lemma preserves_forEach_with {A S} P (xs : list A) body :
  (forall s x, preserves P (body s x)) ->
  forall s : S, preserves P (forEach_with xs s body).
Proof.
  intros Hb. induction xs as [|x xs IH]; intros s; simpl.
  - apply preserves_ret.
  - apply preserves_bind; [apply Hb | intros s'; apply IH].
Qed.

Lemma preserves_and_then P (a b : M bool) :
  preserves P a -> preserves P b -> preserves P (and_then a b).
Proof.
  intros Ha Hb. apply preserves_bind; [exact Ha|].
  intros [|]; [exact Hb | apply preserves_ret].
Qed.

Lemma forEach_unsubscribe hs w :
  forEach hs unsubscribe w = (Returned tt, (fst w, close_all hs (snd w))).
Proof.
  revert w. induction hs as [|id hs IH]; intros [p h]; simpl; [reflexivity|].
  rewrite bind_run. simpl. rewrite IH. reflexivity.
Qed.

Lemma close_all_subs hs h :
  subs (close_all hs h) = filter (fun s => sub_handle s ∉ hs) (subs h).
Proof.
  revert h. induction hs as [|id hs IH]; intros h; simpl.
  - induction (subs h) as [|s l IHl]; [reflexivity|].
    rewrite filter_cons_True by apply not_elem_of_nil. now f_equal.
  - rewrite IH. simpl. rewrite list_filter_filter.
    apply list_filter_iff. intros s. rewrite not_elem_of_cons. tauto.
Qed.

Lemma close_all_frame hs h :
  doc (close_all hs h) = doc h /\ published (close_all hs h) = published h
  /\ fresh (close_all hs h) = fresh h /\ clock (close_all hs h) = clock h.
Proof.
  revert h. induction hs as [|id hs IH]; intros h; simpl; [tauto|].
  destruct (IH (close id h)) as (-> & -> & -> & ->). simpl. tauto.
Qed.

Lemma filter_filter_local {A} (P Q : A -> Prop)
    `{!forall x, Decision (P x), !forall x, Decision (Q x)} (l : list A) :
  (forall x, x ∈ l -> P x -> Q x) -> filter P (filter Q l) = filter P l.
Proof.
  induction l as [|x l IH]; intros Himp; [reflexivity|].
  assert (IH' : filter P (filter Q l) = filter P l).
  { apply IH. intros y Hy. apply Himp. apply elem_of_cons. now right. }
  destruct (decide (Q x)) as [q|q].
  - rewrite (filter_cons_True Q) by exact q.
    destruct (decide (P x)) as [px|px].
    + rewrite !(filter_cons_True P) by exact px. now f_equal.
    + rewrite !(filter_cons_False P) by exact px. exact IH'.
  - rewrite (filter_cons_False Q) by exact q.
    rewrite (filter_cons_False P); [exact IH'|].
    intros px. apply q, Himp; [apply elem_of_cons; now left | exact px].
Qed.

Lemma stopWatchingPosition_run w :
  stopWatchingPosition w =
    (Returned tt,
     (Plugin (mobNotification (fst w)) [] [] (unsubscribes (fst w)),
      let h := close_all (onStop (fst w)) (snd w) in
      Host (store_delta cleared_delta (doc h)) (published h ++ [cleared_delta])
           (subs h) (fresh h) (clock h))).
Proof.
  unfold stopWatchingPosition. rewrite bind_run. simpl.
  rewrite bind_run, forEach_unsubscribe. reflexivity.
Qed.

Lemma plugin_stop_run w :
  plugin_stop w =
    (Returned tt,
     (Plugin (mobNotification (fst w)) (onStop (fst w)) (track (fst w)) [],
      close_all (unsubscribes (fst w)) (snd w))).
Proof.
  unfold plugin_stop. rewrite bind_run. simpl.
  rewrite bind_run, forEach_unsubscribe. reflexivity.
Qed.

Section Invariant.
Context `{RT : Runtime}.

Lemma startWatchingPosition_run w :
  startWatchingPosition w =
    if (0 <? length (onStop (fst w)))%nat then (Returned tt, w)
    else if nullish (mobNotification (fst w)) then (Raised TypeError, w)
    else if nullish (get (mobNotification (fst w)) "data")
         then (Raised TypeError, w)
    else (Returned tt, started w).
Proof.
  destruct w as [[mob os tr us] [dc pb ss fr ck]].
  unfold startWatchingPosition. rewrite bind_run. simpl.
  destruct (0 <? length os)%nat; [reflexivity|].
  rewrite bind_run. simpl. rewrite bind_run. unfold get_checked.
  destruct (nullish mob); [reflexivity|]. simpl.
  rewrite bind_run.
  destruct (nullish (get mob "data")); reflexivity.
Qed.

Lemma Inv_init : Inv init.
Proof.
  split; simpl; try (intros ? []%elem_of_nil); try lia.
Qed.

Lemma Inv_shape w w' : shape w' = shape w -> Inv w -> Inv w'.
Proof.
  unfold shape. intros E [H1 H2 H3 H4 H5 H6 H7].
  injection E as E1 E2 E3 E4.
  split; rewrite ?E1, ?E2, ?E3, ?E4; assumption.
Qed.

Lemma preserves_shape {A} (m : M A) :
  (forall w, shape (snd (m w)) = shape w) -> preserves Inv m.
Proof. intros H w Hw. eapply Inv_shape; [apply H | exact Hw]. Qed.

Lemma on_feed_disjoint s :
  on_feed NavigationPosition s -> on_feed NotificationsMob s -> False.
Proof. unfold on_feed. destruct (sub_feed s); simpl; congruence. Qed.

Lemma Inv_stopWatchingPosition : preserves Inv stopWatchingPosition.
Proof.
  intros w [H1 H2 H3 H4 H5 H6 H7]. rewrite stopWatchingPosition_run.
  destruct (close_all_frame (onStop (fst w)) (snd w)) as (_ & _ & Ef & _).
  split; simpl; rewrite ?Ef, ?close_all_subs.
  - intros s [Hs Hin]%list_elem_of_filter Hp. destruct Hs. now apply H1.
  - intros s [_ Hin]%list_elem_of_filter. now apply H2.
  - intros s [_ Hin]%list_elem_of_filter. now apply H3.
  - intros s [_ Hin]%list_elem_of_filter. now apply H4.
  - exact H5.
  - replace (filter _ (filter _ _)) with (@nil subscription); [simpl; lia|].
    symmetry. apply elem_of_nil_inv.
    intros s [Hp [Hs Hin]%list_elem_of_filter]%list_elem_of_filter.
    apply Hs. now apply H1.
  - lia.
Qed.

Lemma Inv_plugin_stop : preserves Inv plugin_stop.
Proof.
  intros w [H1 H2 H3 H4 H5 H6 H7]. rewrite plugin_stop_run.
  destruct (close_all_frame (unsubscribes (fst w)) (snd w)) as (_ & _ & Ef & _).
  split; simpl; rewrite ?Ef, ?close_all_subs.
  - intros s [_ Hin]%list_elem_of_filter. now apply H1.
  - intros s [Hs Hin]%list_elem_of_filter Hn. destruct Hs. now apply H2.
  - intros s _ []%elem_of_nil.
  - intros s [_ Hin]%list_elem_of_filter. now apply H4.
  - intros h []%elem_of_nil.
  - rewrite filter_filter_local; [exact H6|].
    intros s Hin Hp Hu. eapply on_feed_disjoint; [exact Hp | now apply H3].
  - exact H7.
Qed.

Lemma Inv_plugin_start : preserves Inv plugin_start.
Proof.
  intros w [H1 H2 H3 H4 H5 H6 H7]. unfold plugin_start, subscribe.
  split; simpl.
  - intros s [Hin | ->%list_elem_of_singleton]%elem_of_app Hp;
      [now apply H1 | discriminate Hp].
  - intros s [Hin | ->%list_elem_of_singleton]%elem_of_app Hn;
      apply elem_of_app; [left; now apply H2 | right; now apply list_elem_of_singleton].
  - intros s [Hin | ->%list_elem_of_singleton]%elem_of_app Hu; [|reflexivity].
    apply elem_of_app in Hu as [Hu | Hu%list_elem_of_singleton];
      [now apply H3 | apply H4 in Hin; lia].
  - intros s [Hin | ->%list_elem_of_singleton]%elem_of_app;
      [apply H4 in Hin; lia | simpl; lia].
  - intros h [Hin | ->%list_elem_of_singleton]%elem_of_app;
      [apply H5 in Hin; lia | lia].
  - rewrite filter_app, length_app.
    rewrite (filter_cons_False _ (Sub _ NotificationsMob)) by discriminate.
    simpl. lia.
  - exact H7.
Qed.

Lemma Inv_started w : onStop (fst w) = [] -> Inv w -> Inv (started w).
Proof.
  intros E [H1 H2 H3 H4 H5 H6 H7]. unfold started. rewrite E in *.
  split; simpl.
  - intros s [Hin | ->%list_elem_of_singleton]%elem_of_app Hp;
      [|now apply list_elem_of_singleton].
    exfalso. eapply elem_of_nil, H1; eassumption.
  - intros s [Hin | ->%list_elem_of_singleton]%elem_of_app Hn;
      [now apply H2 | discriminate Hn].
  - intros s [Hin | ->%list_elem_of_singleton]%elem_of_app Hu;
      [now apply H3 | apply H5 in Hu; simpl in Hu; lia].
  - intros s [Hin | ->%list_elem_of_singleton]%elem_of_app;
      [apply H4 in Hin; lia | simpl; lia].
  - intros h Hin. apply H5 in Hin. lia.
  - rewrite filter_app, length_app. simpl in H6.
    rewrite (filter_cons_True _ (Sub _ NavigationPosition)) by reflexivity.
    simpl. lia.
  - lia.
Qed.

Lemma Inv_startWatchingPosition : preserves Inv startWatchingPosition.
Proof.
  intros w Hw. rewrite startWatchingPosition_run.
  destruct (0 <? length (onStop (fst w)))%nat eqn:E; [exact Hw|].
  destruct (nullish _); [exact Hw|].
  destruct (nullish _); [exact Hw|].
  apply Inv_started; [|exact Hw].
  apply Nat.ltb_ge in E. destruct (onStop (fst w)); [reflexivity | simpl in E; lia].
Qed.

Lemma Inv_on_notification_value vr vp :
  preserves Inv (on_notification_value vr vp).
Proof.
  unfold on_notification_value.
  assert (Hstate : forall s,
    preserves Inv (and_then (has_property "state" (val vp))
                     (mret (strict_eq_str (get (val vp) "state") s)))).
  { intros s. apply preserves_and_then; [|apply preserves_ret].
    unfold has_property. destruct (val vp);
      first [apply preserves_ret | apply preserves_throw]. }
  assert (Hread : forall f : value -> bool,
    preserves Inv (mob ← read (fun w => mobNotification (fst w)); mret (f mob))).
  { intros f. apply preserves_bind; [apply preserves_read|].
    intros ?. apply preserves_ret. }
  destruct (String.eqb _ _); [|apply preserves_ret].
  apply preserves_bind.
  { apply preserves_and_then; [apply Hread | apply Hstate]. }
  intros [|].
  - apply preserves_bind; [now apply preserves_shape|].
    intros _. apply Inv_startWatchingPosition.
  - apply preserves_bind.
    { destruct vr; [apply preserves_and_then; [apply Hread|] |]; apply Hstate. }
    intros [|]; [|apply preserves_ret].
    apply preserves_bind; [apply Inv_stopWatchingPosition|].
    intros _. now apply preserves_shape.
Qed.

Lemma Inv_on_notification vr d : preserves Inv (on_notification vr d).
Proof.
  unfold on_notification. destruct (updates d); [|apply preserves_ret].
  apply preserves_forEach. intros u.
  destruct (values u); [|apply preserves_ret].
  apply preserves_forEach. apply Inv_on_notification_value.
Qed.

Lemma Inv_track_position vr p : preserves Inv (track_position vr p).
Proof. now apply preserves_shape. Qed.

Lemma Inv_handleMessage d : preserves Inv (handleMessage d).
Proof. now apply preserves_shape. Qed.

Lemma Inv_on_position vr d : preserves Inv (on_position vr d).
Proof.
  destruct vr; simpl.
  - unfold on_position_index. destruct (updates d); [|apply preserves_ret].
    apply preserves_forEach. intros u.
    destruct (values u); [|apply preserves_ret].
    apply preserves_forEach. intros vp.
    destruct (String.eqb _ _); [|apply preserves_ret].
    apply preserves_bind; [apply preserves_read|]. intros app.
    apply preserves_bind; [apply preserves_lift|]. intros mobDelta.
    apply preserves_bind; [apply Inv_handleMessage|]. intros _.
    apply Inv_track_position.
  - unfold on_position_part000. apply preserves_bind.
    + destruct (updates d); [|apply preserves_ret].
      apply preserves_forEach_with. intros v u.
      destruct (values u); [|apply preserves_ret].
      apply preserves_forEach_with. intros v' vp.
      destruct (String.eqb _ _); [|apply preserves_ret].
      apply preserves_bind; [apply Inv_track_position|].
      intros _. apply preserves_ret.
    + intros v. apply preserves_bind; [apply preserves_read|]. intros mob.
      destruct (ToBoolean mob); [|apply preserves_ret].
      apply preserves_bind; [apply preserves_read|]. intros app.
      apply preserves_bind; [apply preserves_lift|]. intros mobDelta.
      apply Inv_handleMessage.
Qed.

Lemma Inv_step vr e : preserves Inv (step vr e).
Proof.
  destruct e as [| |f now d|p v]; simpl.
  - apply Inv_plugin_start.
  - apply Inv_plugin_stop.
  - unfold deliver. apply preserves_bind; [now apply preserves_shape|].
    intros _. apply preserves_bind; [apply preserves_read|]. intros ss.
    apply preserves_forEach. intros _.
    destruct f; [apply Inv_on_notification | apply Inv_on_position].
  - now apply preserves_shape.
Qed.

Lemma Inv_run vr es : forall w, Inv w -> Inv (run vr es w).
Proof.
  induction es as [|e es IH]; intros w Hw; simpl; [exact Hw|].
  apply IH, Inv_step, Hw.
Qed.

End Invariant.

(** ** The notification state machine *)

Ltac run_monad :=
  unfold and_then, has_property, get_checked, read, throw,
         set_mobNotification, set_onStop, set_track, set_unsubscribes,
         modify_plugin, modify_host, mbind, M_bind, mret, M_ret in *;
  simpl in *.

(** Evaluate the conditions whose value is among the hypotheses. *)
Ltac decided :=
  repeat (simpl;
          repeat match goal with
                 | H : _ = _ |- _ => progress rewrite H
                 end);
  try reflexivity.

Section StateMachine.
Context `{RT : Runtime}.

(** While an event is active, a value of [notifications.mob] leaves
    [mobNotification] as it is or sets it to [null]. *)
Lemma active_mob_kept vr vp w :
  ToBoolean (mobNotification (fst w)) = true ->
  let w' := snd (on_notification_value vr vp w) in
  mobNotification (fst w') = mobNotification (fst w)
  \/ mobNotification (fst w') = VNull.
Proof.
  destruct w as [[mob os tr us] h]. simpl. intros Hact.
  unfold on_notification_value.
  destruct (String.eqb _ _); [|left; reflexivity].
  run_monad. rewrite Hact. simpl.
  destruct vr;
    destruct (val vp) as [| | | | |props|]; simpl; rewrite ?Hact; simpl;
    try (left; reflexivity);
    (destruct (assoc "state" props) as [st|]; simpl; [|left; reflexivity]);
    (destruct (strict_eq_str st "normal"); [|left; reflexivity]);
    rewrite stopWatchingPosition_run; simpl; right; reflexivity.
Qed.

(** An emergency that arrives while an event is active changes
    nothing. *)
Lemma emergency_while_active vr vp w :
  ToBoolean (mobNotification (fst w)) = true ->
  path vp = "notifications.mob" ->
  has_state "emergency" (val vp) ->
  on_notification_value vr vp w = (Returned tt, w).
Proof.
  destruct w as [[mob os tr us] h]. simpl.
  intros Hact Hpath (props & Hv & Hst).
  unfold on_notification_value. rewrite Hpath, Hv. simpl.
  run_monad. rewrite Hact.
  destruct vr; simpl; rewrite ?Hact, ?Hst; simpl; rewrite ?Hst; reflexivity.
Qed.

(** C1.  In every world the engine can reach, at most one position
    watch is open and [onStop] holds at most one handle; while an event
    is active no notification value replaces it by another one; and an
    emergency that arrives while an event is active returns with the
    world unchanged: [mobNotification], [onStop], the track, the open
    subscriptions and what has been published are the same, and no
    second watch is started. *)
Theorem one_mob_event (vr : variant) :
  (forall es,
     let w := run vr es init in
     (length (filter (on_feed NavigationPosition) (subs (snd w))) <= 1)%nat
     /\ (length (onStop (fst w)) <= 1)%nat)
  /\ (forall w vp,
        ToBoolean (mobNotification (fst w)) = true ->
        let w' := snd (on_notification_value vr vp w) in
        mobNotification (fst w') = mobNotification (fst w)
        \/ mobNotification (fst w') = VNull)
  /\ (forall w vp,
        ToBoolean (mobNotification (fst w)) = true ->
        path vp = "notifications.mob" ->
        has_state "emergency" (val vp) ->
        on_notification_value vr vp w = (Returned tt, w)).
Proof.
  split; [|split].
  - intros es w. destruct (Inv_run vr es init Inv_init) as [_ _ _ _ _ H6 H7].
    fold w in H6, H7. split; lia.
  - intros w vp. apply active_mob_kept.
  - intros w vp. apply emergency_while_active.
Qed.

(** ** Values that are neither an activation nor a deactivation *)

(** In src/index.js an object value is ignored unless it is an
    emergency while no event is active or a normal while one is. *)
Lemma index_ignores props w :
  match assoc "state" props with
  | None => True
  | Some st =>
      (strict_eq_str st "emergency" = true ->
       ToBoolean (mobNotification (fst w)) = true)
      /\ (strict_eq_str st "normal" = true ->
          ToBoolean (mobNotification (fst w)) = false)
  end ->
  on_notification_value IndexJs (PV "notifications.mob" (VObj props)) w
    = (Returned tt, w).
Proof.
  destruct w as [[mob os tr us] h]. simpl. intros H.
  unfold on_notification_value. simpl. run_monad.
  destruct (assoc "state" props) as [st|] eqn:Est; simpl.
  - destruct H as [H1 H2].
    destruct (ToBoolean mob) eqn:Em.
    + destruct (strict_eq_str st "normal") eqn:En; [|now decided].
      discriminate H2. reflexivity.
    + destruct (strict_eq_str st "emergency") eqn:Ee; [|].
      { discriminate H1. reflexivity. }
      destruct (strict_eq_str st "normal"); now decided.
  - destruct (ToBoolean mob) eqn:Em; now decided.
Qed.

(** In src/unnamed/part_000 the same holds for the values that are not
    a normal: there the normal branch does not look at
    [mobNotification]. *)
Lemma part000_ignores props w :
  match assoc "state" props with
  | None => True
  | Some st =>
      (strict_eq_str st "emergency" = true ->
       ToBoolean (mobNotification (fst w)) = true)
      /\ strict_eq_str st "normal" = false
  end ->
  on_notification_value Part000 (PV "notifications.mob" (VObj props)) w
    = (Returned tt, w).
Proof.
  destruct w as [[mob os tr us] h]. simpl. intros H.
  unfold on_notification_value. simpl. run_monad.
  destruct (assoc "state" props) as [st|] eqn:Est; simpl.
  - destruct H as [H1 H2].
    destruct (ToBoolean mob) eqn:Em; [now decided|].
    destruct (strict_eq_str st "emergency") eqn:Ee; [|now decided].
    discriminate H1. reflexivity.
  - destruct (ToBoolean mob) eqn:Em; now decided.
Qed.

(** An object without a [state] is ignored by both. *)
Lemma missing_state_ignored vr props w :
  assoc "state" props = None ->
  on_notification_value vr (PV "notifications.mob" (VObj props)) w
    = (Returned tt, w).
Proof.
  intros H. destruct vr; [apply index_ignores | apply part000_ignores];
    rewrite H; exact I.
Qed.

End StateMachine.

(** ** The navigation delta *)

Section Navigation.
Context `{RT : Runtime}.

(** C6.  When the vessel position given to [getMOBDelta] or the MOB
    position stored in the document is [null] or [undefined], the delta
    returned is the cleared one: the five paths
    [navigation.mob.position], [.time], [.elapsed], [.distance] and
    [.bearingTrue], each with the value [null], whatever else the
    document and the clock hold. *)
Theorem cleared_when_unavailable (app : host) (vessel : value) :
  nullish vessel = true
  \/ nullish (getSelfPath app "navigation.mob.position.value") = true ->
  getMOBDelta app vessel =
    Returned (Delta (Some [ Update (Some
      [ PV "navigation.mob.position" VNull;
        PV "navigation.mob.time" VNull;
        PV "navigation.mob.elapsed" VNull;
        PV "navigation.mob.distance" VNull;
        PV "navigation.mob.bearingTrue" VNull ]) ])).
Proof.
  intros H. unfold getMOBDelta.
  assert (E : ToBoolean vessel
              && ToBoolean (getSelfPath app "navigation.mob.position.value")
              = false).
  { destruct H as [H | H].
    - destruct vessel; try discriminate H; reflexivity.
    - destruct (getSelfPath app "navigation.mob.position.value");
        try discriminate H; apply andb_false_r. }
  rewrite E. reflexivity.
Qed.

(** C8.  [computeBowLocation] returns the destination point of geolib
    from the position, over the distance [sensors.gps.fromBow.value],
    along the heading converted to degrees, when the heading and that
    distance are both defined (and raises if geolib does), and the
    position itself when either is [undefined]; and the bearing and the
    distance that [getMOBDelta] publishes are those that geolib gives
    from the position so corrected to the MOB position. *)
Theorem bow_offset_correction (app : host) (vessel heading : value) :
  let gps_dist := getSelfPath app "sensors.gps.fromBow.value" in
  (heading <> VUndefined -> gps_dist <> VUndefined ->
   computeBowLocation app vessel heading =
     (point ← computeDestinationPoint vessel gps_dist
                (VNum (ndiv (nmul (ToNumber heading) (Fin 180)) Math_PI));
      mret (VObj point)))
  /\ (heading = VUndefined \/ gps_dist = VUndefined ->
      computeBowLocation app vessel heading = Returned vessel)
  /\ (let mob := getSelfPath app "navigation.mob.position.value" in
      ToBoolean vessel = true -> ToBoolean mob = true ->
      getMOBDelta app vessel =
        (bow ← computeBowLocation app vessel
                 (getSelfPath app "navigation.headingTrue.value");
         rhumb ← getRhumbLineBearing bow mob;
         distance ← getDistance
                      (VObj [("latitude", get bow "latitude");
                             ("longitude", get bow "longitude")])
                      (VObj [("latitude", get mob "latitude");
                             ("longitude", get mob "longitude")])
                      (VNum (Fin (1 # 10)));
         mret (Delta (Some [ Update (Some
           [ PV "navigation.mob.elapsed"
                (VNum (ndiv (nsub (num_of_Z (clock app))
                                  (ToNumber (getSelfPath app "navigation.mob.time.value")))
                            (Fin 1000)));
             PV "navigation.mob.distance" distance;
             PV "navigation.mob.bearingTrue" (degsToRad rhumb) ]) ]))))
  /\ (let mob := getSelfPath app "navigation.mob.position.value" in
      forall bow rhumb distance,
        ToBoolean vessel = true -> ToBoolean mob = true ->
        computeBowLocation app vessel
          (getSelfPath app "navigation.headingTrue.value") = Returned bow ->
        getRhumbLineBearing bow mob = Returned rhumb ->
        getDistance
          (VObj [("latitude", get bow "latitude");
                 ("longitude", get bow "longitude")])
          (VObj [("latitude", get mob "latitude");
                 ("longitude", get mob "longitude")])
          (VNum (Fin (1 # 10))) = Returned distance ->
        getMOBDelta app vessel =
          Returned (Delta (Some [ Update (Some
            [ PV "navigation.mob.elapsed"
                 (VNum (ndiv (nsub (num_of_Z (clock app))
                                   (ToNumber (getSelfPath app "navigation.mob.time.value")))
                             (Fin 1000)));
              PV "navigation.mob.distance" distance;
              PV "navigation.mob.bearingTrue" (degsToRad rhumb) ]) ]))).
Proof.
  assert (E : ToBoolean vessel = true ->
              ToBoolean (getSelfPath app "navigation.mob.position.value") = true ->
              getMOBDelta app vessel =
                (bow ← computeBowLocation app vessel
                         (getSelfPath app "navigation.headingTrue.value");
                 rhumb ← getRhumbLineBearing bow
                           (getSelfPath app "navigation.mob.position.value");
                 distance ← getDistance
                              (VObj [("latitude", get bow "latitude");
                                     ("longitude", get bow "longitude")])
                              (VObj [("latitude",
                                      get (getSelfPath app "navigation.mob.position.value")
                                          "latitude");
                                     ("longitude",
                                      get (getSelfPath app "navigation.mob.position.value")
                                          "longitude")])
                              (VNum (Fin (1 # 10)));
                 mret (Delta (Some [ Update (Some
                   [ PV "navigation.mob.elapsed"
                        (VNum (ndiv (nsub (num_of_Z (clock app))
                                          (ToNumber (getSelfPath app "navigation.mob.time.value")))
                                    (Fin 1000)));
                     PV "navigation.mob.distance" distance;
                     PV "navigation.mob.bearingTrue" (degsToRad rhumb) ]) ])))).
  { intros Hv Hm. unfold getMOBDelta, calc_distance. rewrite Hv, Hm. simpl.
    destruct (computeBowLocation app vessel _) as [bow|e]; [|reflexivity]. simpl.
    destruct (getRhumbLineBearing bow _) as [rhumb|e]; [|reflexivity]. simpl.
    destruct (getDistance _ _ _) as [distance|e]; reflexivity. }
  split; [|split; [|split]].
  - intros Hh Hg. unfold computeBowLocation, calc_position_from, radsToDeg.
    destruct heading; try congruence;
      destruct (getSelfPath app "sensors.gps.fromBow.value"); try congruence;
      reflexivity.
  - intros [-> | Hg]; unfold computeBowLocation; [reflexivity|].
    rewrite Hg. destruct (is_defined heading); reflexivity.
  - intros mob Hv Hm. exact (E Hv Hm).
  - intros mob bow rhumb distance Hv Hm Hb Hr Hd.
    rewrite (E Hv Hm), Hb. simpl. fold mob. rewrite Hr. simpl.
    rewrite Hd. reflexivity.
Qed.

End Navigation.

(** ** The round trip *)


Section RoundTrip.
Context `{RT : Runtime}.

Lemma started_doc w :
  getSelfPath (snd (started w)) "navigation.mob.position.value"
    = get (get (mobNotification (fst w)) "data") "position"
  /\ getSelfPath (snd (started w)) "navigation.mob.time.value"
    = VNum (num_of_Z (clock (snd w)))
  /\ (forall p, p <> "navigation.mob.position.value" ->
                p <> "navigation.mob.time.value" ->
                getSelfPath (snd (started w)) p = getSelfPath (snd w) p).
Proof.
  unfold getSelfPath, started, store_delta, store_values. simpl. repeat split.
  - rewrite lookup_insert_ne by discriminate. now rewrite lookup_insert_eq.
  - now rewrite lookup_insert_eq.
  - intros p H1 H2.
    rewrite lookup_insert_ne by (intros E; apply H2; symmetry; exact E).
    now rewrite lookup_insert_ne by (intros E; apply H1; symmetry; exact E).
Qed.


End RoundTrip.

(** ** The notification handler on the two files *)

Lemma one_mob_event_witness :
  on_notification_value IndexJs
    (PV "notifications.mob" (emergency_at (VObj []))) (tracking IndexJs)
  = (Returned tt, tracking IndexJs)
  /\ mobNotification (fst (snd (on_notification_value Part000
        (PV "notifications.mob" (VObj [("state", VStr "normal")]))
        (tracking Part000)))) = VNull.
Proof.
  destruct (one_mob_event (RT := meridian) IndexJs) as (_ & _ & H3).
  destruct (one_mob_event (RT := meridian) Part000) as (_ & H2 & _).
  split.
  - apply H3; [reflexivity | reflexivity |].
    eexists. split; reflexivity.
  - destruct (H2 (tracking Part000)
                 (PV "notifications.mob" (VObj [("state", VStr "normal")])))
      as [H | H]; [reflexivity | discriminate H | exact H].
Defined.

(** C2 on the two files.  A normal that arrives while no event is
    active is ignored by src/index.js; src/unnamed/part_000 runs
    [stopWatchingPosition] for it and publishes the five [null]s. *)
Theorem normal_while_idle :
  let started_plugin := snd (plugin_start init) in
  let d := notification (VObj [("state", VStr "normal")]) in
  on_notification IndexJs d started_plugin = (Returned tt, started_plugin)
  /\ fst (on_notification Part000 d started_plugin) = Returned tt
  /\ published (snd (snd (on_notification Part000 d started_plugin)))
     = [ cleared_delta ]
  /\ published (snd started_plugin) = [].
Proof. repeat split. Qed.

(** C3 as the spec words it fails: a [null] value makes
    ["state" in vp.value] raise a TypeError that leaves the handler, and
    so does an emergency without [data], after [mobNotification] has
    been set. *)
Lemma null_value_raises :
  on_notification IndexJs (notification VNull) init = (Raised TypeError, init)
  /\ on_notification Part000 (notification VNull) init = (Raised TypeError, init)
  /\ fst (on_notification IndexJs
            (notification (VObj [("state", VStr "emergency")])) init)
     = Raised TypeError
  /\ fst (on_notification Part000
            (notification (VObj [("state", VStr "emergency")])) init)
     = Raised TypeError.
Proof. repeat split. Qed.

Lemma forEach_returns {A} (P : A -> Prop) (xs : list A) (body : A -> M unit) :
  (forall x w, P x -> exists w', body x w = (Returned tt, w')) ->
  Forall P xs -> forall w, exists w', forEach xs body w = (Returned tt, w').
Proof.
  intros Hb H. induction H as [|x xs Hx _ IH]; intros w; simpl.
  - eexists. reflexivity.
  - rewrite bind_run. destruct (Hb x w Hx) as [w1 ->].
    apply IH.
Qed.

Lemma on_notification_value_returns vr vp w :
  (path vp = "notifications.mob" -> acceptable (val vp) = true) ->
  exists w', on_notification_value vr vp w = (Returned tt, w').
Proof.
  destruct w as [[mob os tr us] h]. destruct vp as [p v]. simpl.
  unfold on_notification_value. simpl.
  destruct (String.eqb p "notifications.mob") eqn:Ep;
    [|eexists; reflexivity].
  apply String.eqb_eq in Ep. intros H. specialize (H Ep).
  run_monad.
  destruct v as [| | | | |props|]; try discriminate H;
    [|destruct (ToBoolean mob) eqn:Em; destruct vr; decided;
      eexists; reflexivity].
  simpl in H.
  destruct (assoc "state" props) as [st|] eqn:Est; simpl in H.
  - destruct (ToBoolean mob) eqn:Em.
    + destruct (strict_eq_str st "normal") eqn:En; destruct vr; decided;
        rewrite ?stopWatchingPosition_run; decided; eexists; reflexivity.
    + destruct (strict_eq_str st "emergency") eqn:Ee.
      * decided. rewrite startWatchingPosition_run. simpl.
        destruct (0 <? length os)%nat; [eexists; reflexivity|].
        apply negb_true_iff in H. rewrite H. eexists; reflexivity.
      * destruct (strict_eq_str st "normal") eqn:En; destruct vr; decided;
          rewrite ?stopWatchingPosition_run; decided; eexists; reflexivity.
  - destruct (ToBoolean mob) eqn:Em; destruct vr; decided; eexists; reflexivity.
Qed.

(** C3, as the code has it.  The handler of [notifications.mob] returns
    normally on every delta whose values for that path are objects or
    arrays, the emergencies among them carrying a [data] that is
    neither [undefined] nor [null]; and an object without a [state] is
    ignored: the handler returns with the world unchanged. *)
Theorem notification_handler_returns (vr : variant) :
  (forall d w, all_acceptable d ->
     exists w', on_notification vr d w = (Returned tt, w'))
  /\ (forall props w,
        assoc "state" props = None ->
        on_notification vr (notification (VObj props)) w = (Returned tt, w)).
Proof.
  split.
  - intros d w H. unfold on_notification, all_acceptable in *.
    destruct (updates d) as [us|]; [|eexists; reflexivity]. simpl in H.
    revert w. eapply forEach_returns; [|exact H].
    intros u w Hu. simpl in Hu.
    destruct (values u) as [vs|]; [|eexists; reflexivity]. simpl in Hu.
    revert w. eapply forEach_returns; [|exact Hu].
    intros vp w Hvp. now apply on_notification_value_returns.
  - intros props w H. unfold on_notification, notification. simpl.
    rewrite bind_run, bind_run, missing_state_ignored by exact H. reflexivity.
Qed.

Lemma notification_handler_returns_witness :
  (exists w', on_notification Part000
                (notification (emergency_at position_10_20)) init
              = (Returned tt, w'))
  /\ on_notification IndexJs (notification (VObj [("data", VNull)])) init
     = (Returned tt, init).
Proof.
  destruct (notification_handler_returns Part000) as (H1 & _).
  destruct (notification_handler_returns IndexJs) as (_ & H2).
  split.
  - apply H1. repeat constructor.
  - apply H2. reflexivity.
Defined.

(** ** Stopping *)

Section Stopping.
Context `{RT : Runtime}.

Lemma stop_closes_position w :
  Inv w ->
  filter (on_feed NavigationPosition) (subs (snd (snd (stopWatchingPosition w))))
    = [].
Proof.
  intros Hw. rewrite stopWatchingPosition_run. simpl.
  rewrite close_all_subs. apply elem_of_nil_inv.
  intros s [Hp [Hs Hin]%list_elem_of_filter]%list_elem_of_filter.
  apply Hs. now apply (inv_pos w Hw).
Qed.

Lemma deliver_unheard vr f now d w :
  filter (on_feed f) (subs (snd w)) = [] ->
  deliver vr f now d w = (Returned tt, (fst w, at_time now (snd w))).
Proof.
  intros H. unfold deliver. rewrite bind_run. simpl.
  rewrite bind_run. simpl. rewrite H. reflexivity.
Qed.

Lemma run_strays vr strays : forall w,
  filter (on_feed NavigationPosition) (subs (snd w)) = [] ->
  fst (run vr (map stray strays) w) = fst w
  /\ published (snd (run vr (map stray strays) w)) = published (snd w).
Proof.
  induction strays as [|[now d] strays IH]; intros w H; simpl; [tauto|].
  rewrite deliver_unheard by exact H. simpl.
  destruct (IH (fst w, at_time now (snd w)) H) as [-> ->]. tauto.
Qed.

(** C7.  From any world the engine can reach, [stopWatchingPosition]
    returns with [onStop] empty, no position subscription open and the
    track empty; whatever position deltas the host observes afterwards,
    nothing more is published and the track stays empty. *)
Theorem stop_then_stray_positions (vr : variant) (es : list event)
    (strays : list (Z * delta)) :
  let w := run vr es init in
  let w1 := snd (stopWatchingPosition w) in
  let w2 := run vr (map stray strays) w1 in
  fst (stopWatchingPosition w) = Returned tt
  /\ onStop (fst w1) = []
  /\ filter (on_feed NavigationPosition) (subs (snd w1)) = []
  /\ track (fst w1) = []
  /\ published (snd w2) = published (snd w1)
  /\ track (fst w2) = [].
Proof.
  intros w w1 w2.
  assert (Hc : filter (on_feed NavigationPosition) (subs (snd w1)) = []).
  { apply stop_closes_position, Inv_run, Inv_init. }
  destruct (run_strays vr strays w1 Hc) as [E1 E2]. fold w2 in E1, E2.
  subst w1. rewrite stopWatchingPosition_run in *. simpl in *.
  rewrite E1. simpl. repeat split; assumption.
Qed.

(** C10.  From any world the engine can reach, [plugin.stop] empties
    [plugin.unsubscribes] and closes the notification subscriptions,
    and nothing else: [onStop], the track and [mobNotification] are as
    before, and the position subscriptions that were open are still
    open. *)
Theorem plugin_stop_frame (vr : variant) (es : list event) :
  let w := run vr es init in
  let w' := snd (plugin_stop w) in
  unsubscribes (fst w') = []
  /\ filter (on_feed NotificationsMob) (subs (snd w')) = []
  /\ onStop (fst w') = onStop (fst w)
  /\ track (fst w') = track (fst w)
  /\ mobNotification (fst w') = mobNotification (fst w)
  /\ filter (on_feed NavigationPosition) (subs (snd w'))
     = filter (on_feed NavigationPosition) (subs (snd w))
  /\ published (snd w') = published (snd w).
Proof.
  intros w w'. assert (Hw : Inv w) by apply Inv_run, Inv_init.
  subst w'. rewrite plugin_stop_run. simpl.
  destruct (close_all_frame (unsubscribes (fst w)) (snd w)) as (_ & Ep & _).
  rewrite close_all_subs. repeat split; try assumption.
  - apply elem_of_nil_inv.
    intros s [Hn [Hs Hin]%list_elem_of_filter]%list_elem_of_filter.
    apply Hs. now apply (inv_notif w Hw).
  - apply filter_filter_local. intros s Hin Hp Hu.
    eapply on_feed_disjoint; [exact Hp | now apply (inv_unsub w Hw)].
Qed.

End Stopping.

(** What the position handler of either file does to the track for a
    delta of one position is [recordSample], at the capacity of the
    file and the time of the clock; in src/index.js, where the MOB
    delta is computed first, as long as [getMOBDelta] returns. *)
Lemma on_position_records `{RT : Runtime} (vr : variant) (v : value) (w : world) :
  (vr = IndexJs -> exists d, getMOBDelta (snd w) v = Returned d) ->
  track (fst (snd (on_position vr (position_delta v) w)))
  = recordSample (capacity vr) v (clock (snd w)) (track (fst w)).
Proof.
  destruct w as [[mob os tr us] h]. destruct vr; intros H.
  - destruct (H eq_refl) as [d Hd]. simpl in Hd.
    simpl. unfold on_position_index. simpl. unfold lift. run_monad.
    rewrite Hd. reflexivity.
  - simpl. unfold on_position_part000. simpl. unfold lift. run_monad.
    destruct (ToBoolean mob); [|reflexivity].
    simpl. destruct (getMOBDelta h v); reflexivity.
Qed.

(** After [plugin.stop] during an emergency the position watch is still
    open, and the next position is still recorded and published. *)
Example watch_survives_plugin_stop :
  let w := run (RT := meridian) Part000
             [ Deliver NavigationPosition 2000 (position_delta position_10_20);
               Stop;
               Deliver NavigationPosition 40000 (position_delta position_10_20) ]
             (tracking Part000) in
  subs (snd w) = [ Sub 1%nat NavigationPosition ]
  /\ onStop (fst w) = [ 1%nat ]
  /\ track (fst w) = [ Sample position_10_20 2000; Sample position_10_20 40000 ]
  /\ length (published (snd w)) = 3%nat.
Proof. vm_compute. repeat split. Qed.



Lemma cleared_when_unavailable_witness :
  getMOBDelta (RT := meridian) (snd (tracking Part000)) VUndefined
    = Returned cleared_delta
  /\ getMOBDelta (RT := meridian) (snd init) position_10_20 = Returned cleared_delta.
Proof.
  split.
  - apply (cleared_when_unavailable (RT := meridian)). left. reflexivity.
  - apply (cleared_when_unavailable (RT := meridian)). right. reflexivity.
Defined.

Lemma bow_offset_correction_witness :
  let app := snd (run (RT := meridian) Part000
                    [ Put "sensors.gps.fromBow.value" (VNum (Fin 5));
                      Put "navigation.headingTrue.value" (VNum (Fin 0)) ]
                    (tracking Part000)) in
  computeBowLocation (RT := meridian) app position_10_20 (VNum (Fin 0))
    = Returned (VObj [("latitude", VNum (Fin (222391 # 22239)));
                      ("longitude", VNum (Fin 20))])
  /\ computeBowLocation (RT := meridian) app position_10_20 VUndefined
     = Returned position_10_20
  /\ getMOBDelta (RT := meridian) (at_time 11000 app) position_10_20
     = Returned (Delta (Some [ Update (Some
         [ PV "navigation.mob.elapsed" (VNum (Fin 10));
           PV "navigation.mob.distance" (VNum (Fin 5));
           PV "navigation.mob.bearingTrue"
              (degsToRad (RT := meridian) (VNum (Fin 180))) ]) ])).
Proof.
  intros app.
  destruct (bow_offset_correction (RT := meridian) app position_10_20 (VNum (Fin 0)))
    as (H1 & _ & _).
  destruct (bow_offset_correction (RT := meridian) app position_10_20 VUndefined)
    as (_ & H2 & _).
  destruct (bow_offset_correction (RT := meridian) (at_time 11000 app)
              position_10_20 (VNum (Fin 0)))
    as (_ & _ & H3 & H4).
  split; [|split].
  - rewrite H1; [reflexivity | discriminate | discriminate].
  - apply H2. left. reflexivity.
  - apply (H4 (VObj [("latitude", VNum (Fin (222391 # 22239)));
                     ("longitude", VNum (Fin 20))])
              (VNum (Fin 180)) (VNum (Fin 5))); reflexivity.
Defined.

(** * More of the engine *)

(** ** The two transitions of the notification handler *)

Lemma activation_run vr props w :
  ToBoolean (mobNotification (fst w)) = false ->
  assoc "state" props = Some (VStr "emergency") ->
  on_notification_value vr (PV "notifications.mob" (VObj props)) w
    = startWatchingPosition (with_mob (VObj props) w).
Proof.
  destruct w as [[mob os tr us] h]. simpl. intros Hidle Hst.
  unfold on_notification_value. simpl. run_monad.
  rewrite Hidle, Hst. reflexivity.
Qed.

Lemma deactivation_run vr props w :
  (vr = IndexJs -> ToBoolean (mobNotification (fst w)) = true) ->
  assoc "state" props = Some (VStr "normal") ->
  on_notification_value vr (PV "notifications.mob" (VObj props)) w
    = (Returned tt, with_mob VNull (stopped w)).
Proof.
  destruct w as [[mob os tr us] h]. simpl. intros Hact Hst.
  unfold on_notification_value. simpl. run_monad.
  destruct vr; [pose proof (Hact eq_refl) as Ha | destruct (ToBoolean mob) eqn:Ha];
    clear Hact; decided; rewrite stopWatchingPosition_run; reflexivity.
Qed.

Lemma getMOBDelta_without_mob `{RT : Runtime} (app : host) (vessel : value) :
  ToBoolean (getSelfPath app "navigation.mob.position.value") = false ->
  getMOBDelta app vessel = Returned cleared_delta.
Proof.
  intros H. unfold getMOBDelta. rewrite H, andb_false_r. reflexivity.
Qed.

Lemma stopped_doc w p :
  p ∈ mob_paths -> getSelfPath (snd (stopped w)) p = VNull.
Proof.
  unfold getSelfPath, stopped, store_delta, store_values, mob_paths. simpl.
  destruct (close_all_frame (onStop (fst w)) (snd w)) as (-> & _).
  rewrite !elem_of_cons, elem_of_nil.
  intros [-> | [-> | [-> | [-> | [-> | []]]]]];
    repeat (rewrite lookup_insert_ne by discriminate);
    now rewrite lookup_insert_eq.
Qed.

(** X1.  An emergency with a [data] handled while no event is active
    and no watch is open returns normally; it keeps the value as
    [mobNotification], empties the track, opens one position
    subscription whose handle is the only one in [onStop], and publishes
    the position of [data] and the time of the clock, which
    [app.getSelfPath] then reads back. *)
Theorem emergency_activates (vr : variant) (props : list (string * value))
    (w : world) :
  ToBoolean (mobNotification (fst w)) = false ->
  onStop (fst w) = [] ->
  assoc "state" props = Some (VStr "emergency") ->
  nullish (get (VObj props) "data") = false ->
  let pos := get (get (VObj props) "data") "position" in
  let r := on_notification_value vr (PV "notifications.mob" (VObj props)) w in
  fst r = Returned tt
  /\ fst (snd r) = Plugin (VObj props) [fresh (snd w)] [] (unsubscribes (fst w))
  /\ subs (snd (snd r)) = subs (snd w) ++ [Sub (fresh (snd w)) NavigationPosition]
  /\ published (snd (snd r))
     = published (snd w) ++ [activation_delta pos (clock (snd w))]
  /\ getSelfPath (snd (snd r)) "navigation.mob.position.value" = pos
  /\ getSelfPath (snd (snd r)) "navigation.mob.time.value"
     = VNum (num_of_Z (clock (snd w))).
Proof.
  intros Hidle Hstop Hst Hdata pos r. subst r.
  rewrite activation_run by assumption.
  rewrite startWatchingPosition_run. simpl. rewrite Hstop. simpl.
  simpl in Hdata. rewrite Hdata. simpl.
  destruct (started_doc (with_mob (VObj props) w)) as (Hp & Ht & _).
  simpl in Hp, Ht.
  repeat split; rewrite ?Hstop; try reflexivity; assumption.
Qed.

Lemma emergency_activates_witness :
  let r := on_notification_value Part000
             (PV "notifications.mob" (emergency_at position_10_20))
             (snd (plugin_start init)) in
  fst (snd r) = Plugin (emergency_at position_10_20) [1%nat] [] [0%nat]
  /\ published (snd (snd r)) = [activation_delta position_10_20 0].
Proof.
  destruct (emergency_activates Part000
              [("state", VStr "emergency"); ("data", VObj [("position", position_10_20)])]
              (snd (plugin_start init)) eq_refl eq_refl eq_refl eq_refl)
    as (_ & H2 & _ & H4 & _).
  split; [exact H2 | exact H4].
Defined.

(** X3.  An emergency whose [data] is missing or [null], handled while
    no event is active, raises a TypeError after [mobNotification] has
    been set and before anything is published or subscribed.  The
    engine is then marked active without a watch: every later
    emergency is ignored, and a later normal brings it back to idle. *)
Theorem emergency_without_data (vr : variant) (props : list (string * value))
    (w : world) :
  ToBoolean (mobNotification (fst w)) = false ->
  onStop (fst w) = [] ->
  assoc "state" props = Some (VStr "emergency") ->
  nullish (get (VObj props) "data") = true ->
  let w' := with_mob (VObj props) w in
  on_notification_value vr (PV "notifications.mob" (VObj props)) w
    = (Raised TypeError, w')
  /\ (forall props',
        assoc "state" props' = Some (VStr "emergency") ->
        on_notification_value vr (PV "notifications.mob" (VObj props')) w'
          = (Returned tt, w'))
  /\ (forall props',
        assoc "state" props' = Some (VStr "normal") ->
        on_notification_value vr (PV "notifications.mob" (VObj props')) w'
          = (Returned tt, with_mob VNull (stopped w))).
Proof.
  intros Hidle Hstop Hst Hdata w'. split; [|split].
  - rewrite activation_run by assumption.
    rewrite startWatchingPosition_run. simpl. rewrite Hstop. simpl.
    simpl in Hdata. rewrite Hdata. reflexivity.
  - intros props' H. apply emergency_while_active; [reflexivity | reflexivity |].
    exists props'. split; [reflexivity | exact H].
  - intros props' H. rewrite deactivation_run; [|reflexivity | exact H].
    destruct w as [[mob os tr us] h]. reflexivity.
Qed.

Lemma emergency_without_data_witness :
  on_notification_value IndexJs
    (PV "notifications.mob" (VObj [("state", VStr "emergency")])) init
  = (Raised TypeError, with_mob (VObj [("state", VStr "emergency")]) init).
Proof.
  exact (proj1 (emergency_without_data IndexJs [("state", VStr "emergency")] init
                  eq_refl eq_refl eq_refl eq_refl)).
Defined.

(** X11.  [startWatchingPosition] is idempotent: called again after it
    has returned, it returns with nothing changed: no second
    subscription, no second publication, and the track is kept. *)
Theorem startWatchingPosition_twice (w : world) :
  fst (startWatchingPosition w) = Returned tt ->
  startWatchingPosition (snd (startWatchingPosition w))
    = (Returned tt, snd (startWatchingPosition w)).
Proof.
  rewrite startWatchingPosition_run.
  destruct (0 <? length (onStop (fst w)))%nat eqn:E.
  - intros _. simpl. rewrite startWatchingPosition_run, E. reflexivity.
  - destruct (nullish (mobNotification (fst w))); [discriminate|].
    destruct (nullish (get (mobNotification (fst w)) "data")); [discriminate|].
    intros _. simpl. rewrite startWatchingPosition_run.
    replace (0 <? length (onStop (fst (started w))))%nat with true; [reflexivity|].
    symmetry. apply Nat.ltb_lt. simpl. rewrite length_app. simpl. lia.
Qed.

Lemma startWatchingPosition_twice_witness :
  startWatchingPosition (tracking IndexJs) = (Returned tt, tracking IndexJs)
  /\ startWatchingPosition
       (snd (startWatchingPosition (with_mob (emergency_at position_10_20) init)))
     = (Returned tt,
        snd (startWatchingPosition (with_mob (emergency_at position_10_20) init))).
Proof.
  split.
  - exact (startWatchingPosition_twice (tracking IndexJs) eq_refl).
  - exact (startWatchingPosition_twice
             (with_mob (emergency_at position_10_20) init) eq_refl).
Defined.

(** ** What every notification value can do to the world *)

Lemma strict_eq_str_true st s : strict_eq_str st s = true -> st = VStr s.
Proof.
  destruct st; try discriminate. simpl. intros H%String.eqb_eq. now subst.
Qed.

Lemma on_notification_value_world vr vp w :
  let w' := snd (on_notification_value vr vp w) in
  w' = w
  \/ (exists props,
        val vp = VObj props
        /\ ToBoolean (mobNotification (fst w)) = false
        /\ (w' = with_mob (VObj props) w
            \/ (onStop (fst w) = [] /\ w' = started (with_mob (VObj props) w))))
  \/ w' = with_mob VNull (stopped w).
Proof.
  destruct vp as [p v]. simpl.
  destruct (String.eqb p "notifications.mob") eqn:Ep.
  2:{ left. unfold on_notification_value. simpl. rewrite Ep. reflexivity. }
  apply String.eqb_eq in Ep. subst p.
  destruct v as [| | | | |props|];
    try (left; destruct w as [[mob os tr us] h];
         unfold on_notification_value; simpl; run_monad;
         destruct (ToBoolean mob) eqn:Em; destruct vr; solve [decided]).
  destruct (assoc "state" props) as [st|] eqn:Est.
  2:{ left. now rewrite missing_state_ignored. }
  destruct (strict_eq_str st "emergency") eqn:Ee.
  - apply strict_eq_str_true in Ee. subst st.
    destruct (ToBoolean (mobNotification (fst w))) eqn:Em.
    + left. rewrite emergency_while_active; [reflexivity | exact Em | reflexivity |].
      exists props. split; [reflexivity | exact Est].
    + right. left. exists props. split; [reflexivity|]. split; [reflexivity|].
      rewrite activation_run by assumption.
      rewrite startWatchingPosition_run. simpl.
      destruct (0 <? length (onStop (fst w)))%nat eqn:El; [left; reflexivity|].
      destruct (nullish _); [left; reflexivity|].
      right. split; [|reflexivity].
      apply Nat.ltb_ge in El. destruct (onStop (fst w)); [reflexivity | simpl in El; lia].
  - destruct (strict_eq_str st "normal") eqn:En.
    + apply strict_eq_str_true in En. subst st.
      destruct vr.
      * destruct (ToBoolean (mobNotification (fst w))) eqn:Em.
        -- right. right. now rewrite deactivation_run.
        -- left. rewrite index_ignores; [reflexivity|]. rewrite Est. simpl.
           split; [discriminate | intros _; exact Em].
      * right. right. rewrite deactivation_run; [reflexivity | discriminate | exact Est].
    + left. destruct vr.
      * rewrite index_ignores; [reflexivity|]. rewrite Est, Ee, En.
        split; discriminate.
      * rewrite part000_ignores; [reflexivity|]. rewrite Est, Ee, En.
        split; [discriminate | reflexivity].
Qed.

Section Reachable.
Context `{RT : Runtime}.

Lemma preserves_on_notification P vr d :
  (forall vp, preserves P (on_notification_value vr vp)) ->
  preserves P (on_notification vr d).
Proof.
  intros H. unfold on_notification. destruct (updates d); [|apply preserves_ret].
  apply preserves_forEach. intros u.
  destruct (values u); [|apply preserves_ret].
  apply preserves_forEach. exact H.
Qed.

Lemma preserves_on_position P vr d :
  (forall p, preserves P (track_position vr p)) ->
  (forall d', preserves P (handleMessage d')) ->
  preserves P (on_position vr d).
Proof.
  intros Ht Hm. destruct vr; simpl.
  - unfold on_position_index. destruct (updates d); [|apply preserves_ret].
    apply preserves_forEach. intros u.
    destruct (values u); [|apply preserves_ret].
    apply preserves_forEach. intros vp.
    destruct (String.eqb _ _); [|apply preserves_ret].
    apply preserves_bind; [apply preserves_read|]. intros app.
    apply preserves_bind; [apply preserves_lift|]. intros mobDelta.
    apply preserves_bind; [apply Hm|]. intros _. apply Ht.
  - unfold on_position_part000. apply preserves_bind.
    + destruct (updates d); [|apply preserves_ret].
      apply preserves_forEach_with. intros v u.
      destruct (values u); [|apply preserves_ret].
      apply preserves_forEach_with. intros v' vp.
      destruct (String.eqb _ _); [|apply preserves_ret].
      apply preserves_bind; [apply Ht|].
      intros _. apply preserves_ret.
    + intros v. apply preserves_bind; [apply preserves_read|]. intros mob.
      destruct (ToBoolean mob); [|apply preserves_ret].
      apply preserves_bind; [apply preserves_read|]. intros app.
      apply preserves_bind; [apply preserves_lift|]. intros mobDelta. apply Hm.
Qed.

(** A property of the plugin's variables alone is kept by what only
    changes the host. *)
Lemma preserves_plugin_same {A} (P : world -> Prop) (m : M A) :
  (forall w w', fst w' = fst w -> P w -> P w') ->
  (forall w, fst (snd (m w)) = fst w) -> preserves P m.
Proof. intros HP Hm w Hw. eapply HP; [apply Hm | exact Hw]. Qed.

Lemma spaced_snoc tr s :
  spaced tr ->
  match last tr with Some l => time l < time s - 30 * 1000 | None => True end ->
  spaced (tr ++ [s]).
Proof.
  induction tr as [|a tr IH]; simpl; [tauto|].
  intros [H1 H2] Hl. destruct tr as [|b tr].
  - simpl in *. tauto.
  - split; [exact H1|]. apply IH; [exact H2 | exact Hl].
Qed.

Lemma recordSample_spaced cap p now tr :
  spaced tr -> spaced (recordSample cap p now tr).
Proof.
  intros H. unfold recordSample.
  destruct (last tr) as [l|] eqn:El.
  - destruct tr as [|a tr]; [discriminate|].
    replace (length (a :: tr) =? 0)%nat with false by reflexivity.
    rewrite orb_false_l.
    destruct (time l <? now - 30 * 1000) eqn:E; [|exact H].
    apply Z.ltb_lt in E.
    assert (Hs : spaced ((a :: tr) ++ [Sample p now])).
    { apply spaced_snoc; [exact H | rewrite El; exact E]. }
    destruct (cap <? _)%nat; [apply spaced_tail|]; exact Hs.
  - apply last_None in El. subst tr. simpl.
    destruct (cap <? 1)%nat; simpl; tauto.
Qed.

Lemma track_ok_on_notification_value vr vp :
  preserves (track_ok vr) (on_notification_value vr vp).
Proof.
  intros w Hw. unfold track_ok.
  destruct (on_notification_value_world vr vp w)
    as [-> | [(props & _ & _ & [-> | [_ ->]]) | ->]]; simpl;
    first [exact Hw | split; [exact I | lia]].
Qed.

Lemma track_ok_run vr es : forall w, track_ok vr w -> track_ok vr (run vr es w).
Proof.
  assert (Hframe : forall w w', fst w' = fst w -> track_ok vr w -> track_ok vr w').
  { intros w w' E. unfold track_ok. now rewrite E. }
  assert (Ht : forall p, preserves (track_ok vr) (track_position vr p)).
  { intros p w [H1 H2]. split; simpl.
    - now apply recordSample_spaced.
    - now apply recordSample_length. }
  assert (Hm : forall d, preserves (track_ok vr) (handleMessage d)).
  { intros d. now apply preserves_plugin_same. }
  induction es as [|e es IH]; intros w Hw; simpl; [exact Hw|].
  apply IH. destruct e as [| |f now d|p v]; simpl.
  - destruct Hw. split; assumption.
  - rewrite plugin_stop_run. destruct Hw. split; assumption.
  - revert w Hw. apply preserves_bind; [now apply preserves_plugin_same|].
    intros _. apply preserves_bind; [apply preserves_read|]. intros ss.
    apply preserves_forEach. intros _. destruct f; simpl.
    + apply preserves_on_notification, track_ok_on_notification_value.
    + now apply preserves_on_position.
  - exact Hw.
Qed.

(** X5.  In every world the engine can reach the track is in the order
    of time with more than 30 s between two samples, whatever the
    clock did, and holds at most [capacity] samples; so does the
    answer of [/getTrack]. *)
Theorem track_always_spaced (vr : variant) (es : list event) :
  let w := run vr es init in
  spaced (track (fst w))
  /\ (length (track (fst w)) <= capacity vr)%nat
  /\ (length (getTrack w) <= capacity vr)%nat.
Proof.
  intros w. destruct (track_ok_run vr es init) as [H1 H2].
  { split; simpl; [exact I | lia]. }
  fold w in H1, H2. unfold getTrack. rewrite length_map. tauto.
Qed.

End Reachable.

(** ** The idle state *)

Section Idle.
Context `{RT : Runtime}.

Lemma deliver_run vr f now d w :
  deliver vr f now d w =
    forEach (filter (on_feed f) (subs (snd w))) (fun _ => handler vr f d)
            (fst w, at_time now (snd w)).
Proof. reflexivity. Qed.

Lemma idle_ok_on_notification_value vr vp :
  preserves (fun w => Inv w /\ idle_ok w) (on_notification_value vr vp).
Proof.
  intros w [Hi Hk]. split; [now apply Inv_on_notification_value|].
  unfold idle_ok.
  destruct (on_notification_value_world vr vp w)
    as [-> | [(props & _ & _ & [-> | [_ ->]]) | ->]]; simpl;
    first [exact Hk | discriminate | tauto].
Qed.

Lemma active_on_position vr d :
  preserves (fun w => Inv w /\ ToBoolean (mobNotification (fst w)) = true)
            (on_position vr d).
Proof.
  apply preserves_on_position.
  - intros p w [Hi Hm]. split; [now apply Inv_track_position | exact Hm].
  - intros d' w [Hi Hm]. split; [now apply Inv_handleMessage | exact Hm].
Qed.

Lemma idle_ok_step vr e :
  preserves (fun w => Inv w /\ idle_ok w) (step vr e).
Proof.
  intros w [Hi Hk]. split; [now apply Inv_step|].
  destruct e as [| |f now d|p v]; simpl.
  - exact Hk.
  - rewrite plugin_stop_run. exact Hk.
  - rewrite deliver_run. destruct f; simpl.
    + apply (preserves_forEach (fun w => Inv w /\ idle_ok w)).
      * intros _. apply preserves_on_notification, idle_ok_on_notification_value.
      * split; [|exact Hk]. eapply Inv_shape; [|exact Hi]. reflexivity.
    + destruct (filter (on_feed NavigationPosition) (subs (snd w)))
        as [|s l] eqn:Ef; [exact Hk|].
      assert (Hs : s ∈ filter (on_feed NavigationPosition) (subs (snd w))).
      { rewrite Ef. apply elem_of_cons. now left. }
      apply list_elem_of_filter in Hs as [Hp Hin].
      pose proof (inv_pos w Hi s Hin Hp) as Hh.
      assert (Hm : ToBoolean (mobNotification (fst w)) = true).
      { destruct (ToBoolean (mobNotification (fst w))) eqn:Em; [reflexivity|].
        destruct (Hk Em) as [E _]. rewrite E in Hh.
        now apply elem_of_nil in Hh. }
      assert (H : Inv (fst w, at_time now (snd w))
                  /\ ToBoolean (mobNotification (fst (fst w, at_time now (snd w)))) = true).
      { split; [|exact Hm]. eapply Inv_shape; [|exact Hi]. reflexivity. }
      pose proof (preserves_forEach _ (s :: l) (fun _ => on_position vr d)
                    (fun _ => active_on_position vr d) _ H) as [_ Hm'].
      intros Hidle. rewrite Hidle in Hm'. discriminate.
  - exact Hk.
Qed.

Lemma idle_ok_run vr es : forall w,
  Inv w /\ idle_ok w -> Inv (run vr es w) /\ idle_ok (run vr es w).
Proof.
  induction es as [|e es IH]; intros w Hw; simpl; [exact Hw|].
  apply IH. now apply idle_ok_step.
Qed.

(** X6.  In every world the engine can reach, while no event is active
    there is no handle in [onStop], no position subscription is open,
    the track is empty and [/getTrack] answers the empty list. *)
Theorem idle_has_no_watch (vr : variant) (es : list event) :
  let w := run vr es init in
  ToBoolean (mobNotification (fst w)) = false ->
  onStop (fst w) = []
  /\ filter (on_feed NavigationPosition) (subs (snd w)) = []
  /\ track (fst w) = []
  /\ getTrack w = [].
Proof.
  intros w Hidle.
  destruct (idle_ok_run vr es init) as [Hi Hk].
  { split; [apply Inv_init | intros _; split; reflexivity]. }
  fold w in Hi, Hk. destruct (Hk Hidle) as [E1 E2].
  repeat split; try assumption.
  - pose proof (inv_count w Hi) as Hc. rewrite E1 in Hc. simpl in Hc.
    destruct (filter _ _); [reflexivity | simpl in Hc; lia].
  - unfold getTrack. now rewrite E2.
Qed.

(** X2.  In every world the engine can reach, a normal handled while
    an event is active returns with [mobNotification] null, [onStop]
    and the track empty and no position subscription open; it
    publishes the five nulls once, [app.getSelfPath] then reads [null]
    at each of the five paths, and the MOB delta computed from then on
    is the cleared one, whatever the vessel position. *)
Theorem normal_deactivates (vr : variant) (es : list event)
    (props : list (string * value)) :
  let w := run vr es init in
  ToBoolean (mobNotification (fst w)) = true ->
  assoc "state" props = Some (VStr "normal") ->
  let r := on_notification_value vr (PV "notifications.mob" (VObj props)) w in
  fst r = Returned tt
  /\ fst (snd r) = Plugin VNull [] [] (unsubscribes (fst w))
  /\ filter (on_feed NavigationPosition) (subs (snd (snd r))) = []
  /\ published (snd (snd r)) = published (snd w) ++ [cleared_delta]
  /\ (forall p, p ∈ mob_paths -> getSelfPath (snd (snd r)) p = VNull)
  /\ (forall vessel now,
        getMOBDelta (at_time now (snd (snd r))) vessel = Returned cleared_delta).
Proof.
  intros w Hact Hst r. subst r.
  rewrite deactivation_run; [|intros _; exact Hact | exact Hst].
  change (snd (snd (Returned tt, with_mob VNull (stopped w))))
    with (snd (stopped w)).
  assert (Hi : Inv w) by apply Inv_run, Inv_init.
  pose proof (stop_closes_position w Hi) as Hc.
  rewrite stopWatchingPosition_run in Hc.
  destruct (close_all_frame (onStop (fst w)) (snd w)) as (_ & Ep & _).
  split; [reflexivity|]. split; [reflexivity|]. split; [exact Hc|].
  split; [simpl; now rewrite Ep|]. split.
  - intros p Hp. apply (stopped_doc w p Hp).
  - intros vessel now. apply getMOBDelta_without_mob.
    change (getSelfPath (at_time now (snd (stopped w))))
      with (getSelfPath (snd (stopped w))).
    rewrite (stopped_doc w); [reflexivity|].
    apply elem_of_cons. now left.
Qed.

Lemma activation_started vr props w :
  ToBoolean (mobNotification (fst w)) = false ->
  onStop (fst w) = [] ->
  assoc "state" props = Some (VStr "emergency") ->
  nullish (get (VObj props) "data") = false ->
  on_notification_value vr (PV "notifications.mob" (VObj props)) w
    = (Returned tt, started (with_mob (VObj props) w)).
Proof.
  intros Hidle Hstop Hst Hdata.
  rewrite activation_run by assumption.
  rewrite startWatchingPosition_run. simpl. rewrite Hstop. simpl.
  simpl in Hdata. rewrite Hdata. reflexivity.
Qed.

(** X4.  An emergency whose [data] has no position (or a falsy one)
    still activates: the watch is opened; but the MOB position that is
    published is not usable, and the MOB delta computed from then on is
    the cleared one, whatever the vessel position. *)
Theorem emergency_without_position (vr : variant)
    (props : list (string * value)) (w : world) :
  ToBoolean (mobNotification (fst w)) = false ->
  onStop (fst w) = [] ->
  assoc "state" props = Some (VStr "emergency") ->
  nullish (get (VObj props) "data") = false ->
  ToBoolean (get (get (VObj props) "data") "position") = false ->
  let r := on_notification_value vr (PV "notifications.mob" (VObj props)) w in
  fst r = Returned tt
  /\ mobNotification (fst (snd r)) = VObj props
  /\ subs (snd (snd r)) = subs (snd w) ++ [Sub (fresh (snd w)) NavigationPosition]
  /\ (forall vessel now,
        getMOBDelta (at_time now (snd (snd r))) vessel = Returned cleared_delta).
Proof.
  intros Hidle Hstop Hst Hdata Hpos r. subst r.
  rewrite activation_started by assumption.
  destruct (started_doc (with_mob (VObj props) w)) as (Hp & _).
  repeat split.
  intros vessel now. apply getMOBDelta_without_mob.
  change (getSelfPath (at_time now (snd (snd (Returned tt, started (with_mob (VObj props) w))))))
    with (getSelfPath (snd (started (with_mob (VObj props) w)))).
  rewrite Hp. exact Hpos.
Qed.

End Idle.

Lemma idle_has_no_watch_witness :
  getTrack (run (RT := meridian) IndexJs
              [ Deliver NavigationPosition 2000 (position_delta position_10_20);
                Deliver NotificationsMob 3000
                  (notification (VObj [("state", VStr "normal")])) ]
              (tracking IndexJs)) = [].
Proof.
  apply (idle_has_no_watch (RT := meridian) IndexJs
           [ Start;
             Deliver NotificationsMob 1000 (notification (emergency_at position_10_20));
             Deliver NavigationPosition 2000 (position_delta position_10_20);
             Deliver NotificationsMob 3000
               (notification (VObj [("state", VStr "normal")])) ]).
  reflexivity.
Defined.

Lemma normal_deactivates_witness :
  published (snd (snd (on_notification_value Part000
     (PV "notifications.mob" (VObj [("state", VStr "normal")])) (tracking Part000))))
  = [ activation_delta position_10_20 1000; cleared_delta ].
Proof.
  destruct (normal_deactivates (RT := meridian) Part000
              [ Start;
                Deliver NotificationsMob 1000
                  (notification (emergency_at position_10_20)) ]
              [("state", VStr "normal")] eq_refl eq_refl)
    as (_ & _ & _ & H & _).
  exact H.
Defined.

Lemma emergency_without_position_witness :
  getMOBDelta (RT := meridian)
    (at_time 5000 (snd (snd (on_notification_value IndexJs
       (PV "notifications.mob"
           (VObj [("state", VStr "emergency"); ("data", VObj [])]))
       init))))
    position_10_20
  = Returned cleared_delta.
Proof.
  destruct (emergency_without_position (RT := meridian) IndexJs
              [("state", VStr "emergency"); ("data", VObj [])] init
              eq_refl eq_refl eq_refl eq_refl eq_refl)
    as (_ & _ & _ & H).
  apply H.
Defined.

(** ** The position handlers as folds *)

Lemma default_last_cons {A} (d x : A) (l : list A) :
  default d (last (x :: l)) = default x (last l).
Proof.
  revert d x. induction l as [|y l IH]; intros d x; [reflexivity|].
  change (last (x :: y :: l)) with (last (y :: l)).
  rewrite (IH d y). symmetry. apply IH.
Qed.

Lemma default_last_app {A} (d : A) (a b : list A) :
  default (default d (last a)) (last b) = default d (last (a ++ b)).
Proof.
  revert d. induction a as [|x a IH]; intros d; [reflexivity|].
  simpl app. rewrite !default_last_cons. apply IH.
Qed.

Lemma with_track_same w : with_track (track (fst w)) w = w.
Proof. now destruct w as [[mob os tr us] h]. Qed.

Lemma offer_at_app cap now a b tr :
  offer_at cap now (a ++ b) tr = offer_at cap now b (offer_at cap now a tr).
Proof. apply fold_left_app. Qed.

Section PositionHandlers.
Context `{RT : Runtime}.

Lemma part000_inner vs : forall v0 w,
  forEach_with vs v0
    (fun vesselPosition vp =>
       if String.eqb (path vp) "navigation.position"
       then track_position Part000 (val vp) ;; mret (val vp)
       else mret vesselPosition) w
  = (Returned (default v0 (last (positions_of vs))),
     with_track (offer_at (capacity Part000) (clock (snd w)) (positions_of vs)
                          (track (fst w))) w).
Proof.
  induction vs as [|vp vs IH]; intros v0 w.
  - simpl. now rewrite with_track_same.
  - simpl forEach_with. rewrite bind_run. unfold positions_of. simpl flat_map.
    fold (positions_of vs).
    destruct (String.eqb (path vp) "navigation.position").
    + change ((track_position Part000 (val vp) ;; mret (val vp)) w)
        with (Returned (val vp),
              with_track (recordSample (capacity Part000) (val vp) (clock (snd w))
                            (track (fst w))) w).
      cbv beta iota. rewrite IH. simpl app. rewrite default_last_cons. reflexivity.
    + change (@mret M M_ret value v0 w) with (Returned v0, w). cbv beta iota.
      rewrite IH. reflexivity.
Qed.

Lemma part000_outer us : forall v0 w,
  forEach_with us v0
    (fun vesselPosition u =>
       match values u with
       | Some vs =>
           forEach_with vs vesselPosition
             (fun vesselPosition vp =>
                if String.eqb (path vp) "navigation.position"
                then track_position Part000 (val vp) ;; mret (val vp)
                else mret vesselPosition)
       | None => mret vesselPosition
       end) w
  = (Returned (default v0 (last (flat_map (fun u => positions_of (default [] (values u))) us))),
     with_track (offer_at (capacity Part000) (clock (snd w))
                   (flat_map (fun u => positions_of (default [] (values u))) us)
                   (track (fst w))) w).
Proof.
  induction us as [|u us IH]; intros v0 w.
  - simpl. now rewrite with_track_same.
  - simpl forEach_with. rewrite bind_run. simpl flat_map.
    destruct (values u) as [vs|].
    + rewrite part000_inner. cbv beta iota. rewrite IH. simpl default.
      rewrite default_last_app, offer_at_app. reflexivity.
    + change (@mret M M_ret value v0 w) with (Returned v0, w). cbv beta iota.
      rewrite IH. reflexivity.
Qed.

(** The position handler of src/unnamed/part_000: the track first, then
    the one MOB delta. *)
Lemma part000_handler_eq (d : delta) (w : world) :
  on_position_part000 d w
  = if ToBoolean (mobNotification (fst w))
    then match getMOBDelta (snd w) (default VUndefined (last (position_values d))) with
         | Returned mobDelta =>
             (Returned tt,
              (fst (with_track (offer_at (capacity Part000) (clock (snd w))
                                         (position_values d) (track (fst w))) w),
               publish mobDelta (snd w)))
         | Raised e =>
             (Raised e,
              with_track (offer_at (capacity Part000) (clock (snd w))
                                   (position_values d) (track (fst w))) w)
         end
    else (Returned tt,
          with_track (offer_at (capacity Part000) (clock (snd w))
                               (position_values d) (track (fst w))) w).
Proof.
  unfold on_position_part000. rewrite bind_run.
  assert (E : match updates d with
              | Some us =>
                  forEach_with us VUndefined
                    (fun vesselPosition u =>
                       match values u with
                       | Some vs =>
                           forEach_with vs vesselPosition
                             (fun vesselPosition vp =>
                                if String.eqb (path vp) "navigation.position"
                                then track_position Part000 (val vp) ;; mret (val vp)
                                else mret vesselPosition)
                       | None => mret vesselPosition
                       end)
              | None => mret VUndefined
              end w
            = (Returned (default VUndefined (last (position_values d))),
               with_track (offer_at (capacity Part000) (clock (snd w))
                             (position_values d) (track (fst w))) w)).
  { unfold position_values. destruct (updates d) as [us|].
    - apply part000_outer.
    - simpl. now rewrite with_track_same. }
  rewrite E. clear E. rewrite bind_run. simpl.
  destruct (ToBoolean (mobNotification (fst w))); [|reflexivity].
  rewrite bind_run. simpl. rewrite bind_run. unfold lift.
  destruct (getMOBDelta (snd w) _); reflexivity.
Qed.

(** X9.  The position handler of src/unnamed/part_000 offers the values
    of [navigation.position] of the delta to the track, in their order
    and at the time of the clock, and ignores the values of other
    paths; then, if [mobNotification] is set, it computes one MOB
    delta, for the last of these positions, or for [undefined] when the
    delta has none, and publishes it.  It raises only if [getMOBDelta]
    does, as geolib does on a position without coordinates: then the
    positions are on the track and nothing is published.  Nothing else
    changes. *)
Theorem on_position_part000_run (d : delta) (w : world) :
  let vals := position_values d in
  let tracked :=
    with_track (offer_at (capacity Part000) (clock (snd w)) vals (track (fst w))) w in
  on_position_part000 d w
  = if ToBoolean (mobNotification (fst w))
    then match getMOBDelta (snd w) (default VUndefined (last vals)) with
         | Returned mobDelta => (Returned tt, (fst tracked, publish mobDelta (snd w)))
         | Raised e => (Raised e, tracked)
         end
    else (Returned tt, tracked).
Proof. apply part000_handler_eq. Qed.

Lemma index_step_frame v w :
  clock (snd (snd (index_step v w))) = clock (snd w)
  /\ subs (snd (snd (index_step v w))) = subs (snd w)
  /\ fresh (snd (snd (index_step v w))) = fresh (snd w).
Proof.
  unfold index_step. destruct (getMOBDelta (snd w) v); repeat split.
Qed.

Lemma index_run_app a : forall b w,
  index_run (a ++ b) w
  = match index_run a w with
    | (Returned _, w') => index_run b w'
    | (Raised e, w') => (Raised e, w')
    end.
Proof.
  induction a as [|v a IH]; intros b w; [reflexivity|].
  simpl. destruct (index_step v w) as [[[]|e] w']; [apply IH | reflexivity].
Qed.

Lemma index_step_eq (v : value) (w : world) :
  (app ← read snd;
   mobDelta ← lift (getMOBDelta app v);
   handleMessage mobDelta ;;
   track_position IndexJs v) w
  = index_step v w.
Proof.
  rewrite bind_run. simpl. rewrite bind_run. unfold lift, index_step.
  destruct (getMOBDelta (snd w) v); [|reflexivity].
  now destruct w as [[mob os tr us] h].
Qed.

Lemma index_inner vs : forall w,
  forEach vs
    (fun vp =>
       if String.eqb (path vp) "navigation.position"
       then app ← read snd;
            mobDelta ← lift (getMOBDelta app (val vp));
            handleMessage mobDelta ;;
            track_position IndexJs (val vp)
       else mret tt) w
  = index_run (positions_of vs) w.
Proof.
  induction vs as [|vp vs IH]; intros w; [reflexivity|].
  simpl forEach. rewrite bind_run. unfold positions_of. simpl flat_map.
  fold (positions_of vs).
  destruct (String.eqb (path vp) "navigation.position").
  - rewrite index_step_eq. simpl app. simpl index_run.
    destruct (index_step (val vp) w) as [[[]|e] w']; [apply IH | reflexivity].
  - change (@mret M M_ret unit tt w) with (Returned tt, w). cbv beta iota.
    apply IH.
Qed.

Lemma index_outer us : forall w,
  forEach us
    (fun u =>
       match values u with
       | Some vs =>
           forEach vs
             (fun vp =>
                if String.eqb (path vp) "navigation.position"
                then app ← read snd;
                     mobDelta ← lift (getMOBDelta app (val vp));
                     handleMessage mobDelta ;;
                     track_position IndexJs (val vp)
                else mret tt)
       | None => mret tt
       end) w
  = index_run (flat_map (fun u => positions_of (default [] (values u))) us) w.
Proof.
  induction us as [|u us IH]; intros w; [reflexivity|].
  simpl forEach. rewrite bind_run. simpl flat_map. rewrite index_run_app.
  destruct (values u) as [vs|].
  - rewrite index_inner. simpl default.
    destruct (index_run (positions_of vs) w) as [[[]|e] w']; [apply IH | reflexivity].
  - change (@mret M M_ret unit tt w) with (Returned tt, w). cbv beta iota.
    apply IH.
Qed.

(** The position handler of src/index.js, position by position. *)
Lemma index_handler_eq (d : delta) (w : world) :
  on_position_index d w = index_run (position_values d) w.
Proof.
  unfold on_position_index, position_values.
  destruct (updates d) as [us|]; [apply index_outer | reflexivity].
Qed.

Lemma index_run_returned vals : forall w w',
  index_run vals w = (Returned tt, w') ->
  fst w' = fst (with_track (offer_at (capacity IndexJs) (clock (snd w)) vals
                                     (track (fst w))) w)
  /\ clock (snd w') = clock (snd w)
  /\ length (published (snd w'))
     = (length (published (snd w)) + length vals)%nat.
Proof.
  induction vals as [|v vals IH]; intros w w' H.
  - injection H as <-. destruct w as [[mob os tr us] h]. simpl.
    repeat split. lia.
  - simpl in H. unfold index_step in H.
    destruct (getMOBDelta (snd w) v) as [d|e]; [|discriminate].
    destruct (IH _ _ H) as (E1 & E2 & E3). simpl in E1, E2, E3.
    rewrite E1, E2, E3. rewrite length_app. simpl. repeat split. lia.
Qed.

Lemma index_run_raised vals : forall w e w',
  index_run vals w = (Raised e, w') ->
  exists before v after,
    vals = before ++ v :: after
    /\ index_run before w = (Returned tt, w')
    /\ getMOBDelta (snd w') v = Raised e.
Proof.
  induction vals as [|v vals IH]; intros w e w' H; [discriminate|].
  simpl in H. unfold index_step in H.
  destruct (getMOBDelta (snd w) v) as [d|e'] eqn:Ed.
  - destruct (IH _ _ _ H) as (before & v' & after & -> & Hb & Hr).
    exists (v :: before), v', after. split; [reflexivity|]. split; [|exact Hr].
    simpl. unfold index_step. rewrite Ed. exact Hb.
  - injection H as <- <-. exists [], v, vals. repeat split. exact Ed.
Qed.

Lemma index_run_returns vals : forall w,
  (forall h v, exists d, getMOBDelta h v = Returned d) ->
  exists w', index_run vals w = (Returned tt, w').
Proof.
  induction vals as [|v vals IH]; intros w H; [now exists w|].
  simpl. unfold index_step. destruct (H (snd w) v) as [d ->]. apply IH, H.
Qed.

(** X8.  The position handler of src/index.js takes the values of
    [navigation.position] of the delta in their order and ignores the
    values of other paths; for each position it computes the MOB delta
    from the document as the deltas before left it, publishes it and
    offers the position to the track at the time of the clock, whether
    or not [mobNotification] is set.  It raises only if [getMOBDelta]
    does, as geolib does on a position without coordinates: the
    positions before that one have been published and offered, that
    one and those after it have not.  When it returns, there is one
    more publication for each position and the track is the old one
    with the positions offered in turn; it returns whenever
    [getMOBDelta] does, and a delta without a position leaves the
    world as it is. *)
Theorem on_position_index_run (d : delta) (w : world) :
  let vals := position_values d in
  on_position_index d w = index_run vals w
  /\ (forall w',
        on_position_index d w = (Returned tt, w') ->
        fst w' = fst (with_track (offer_at (capacity IndexJs) (clock (snd w)) vals
                                           (track (fst w))) w)
        /\ length (published (snd w'))
           = (length (published (snd w)) + length vals)%nat)
  /\ (forall e w',
        on_position_index d w = (Raised e, w') ->
        exists before v after,
          vals = before ++ v :: after
          /\ index_run before w = (Returned tt, w')
          /\ getMOBDelta (snd w') v = Raised e)
  /\ ((forall h v, exists mobDelta, getMOBDelta h v = Returned mobDelta) ->
      exists w', on_position_index d w = (Returned tt, w'))
  /\ (vals = [] -> on_position_index d w = (Returned tt, w)).
Proof.
  intros vals. subst vals. rewrite index_handler_eq.
  split; [reflexivity|]. split; [|split; [|split]].
  - intros w' H. destruct (index_run_returned _ _ _ H) as (E1 & _ & E3).
    split; assumption.
  - intros e w' H. apply index_run_raised, H.
  - intros H. apply index_run_returns, H.
  - intros ->. reflexivity.
Qed.

Lemma getMOBDelta_without_vessel (app : host) (vessel : value) :
  ToBoolean vessel = false -> getMOBDelta app vessel = Returned cleared_delta.
Proof. intros H. unfold getMOBDelta. rewrite H. reflexivity. Qed.

Lemma cleared_wipes (h : host) (vessel : value) (now : Z) :
  getMOBDelta (at_time now (publish cleared_delta h)) vessel = Returned cleared_delta.
Proof.
  apply getMOBDelta_without_mob.
  unfold getSelfPath, at_time, publish, store_delta, store_values. simpl.
  repeat (rewrite lookup_insert_ne by discriminate).
  now rewrite lookup_insert_eq.
Qed.

(** X7.  In src/unnamed/part_000, a delta of the position watch that
    carries no value of [navigation.position] (the watch also
    subscribes to the heading), handled while an event is active,
    publishes the five nulls: the stored MOB position is overwritten
    with [null], and the MOB delta computed from then on is the cleared
    one, whatever the vessel position.  The track is left alone. *)
Theorem part000_delta_without_position (d : delta) (w : world) :
  position_values d = [] ->
  ToBoolean (mobNotification (fst w)) = true ->
  on_position_part000 d w = (Returned tt, (fst w, publish cleared_delta (snd w)))
  /\ (forall vessel now,
        getMOBDelta (at_time now (publish cleared_delta (snd w))) vessel
        = Returned cleared_delta).
Proof.
  intros Hv Hm. split; [|intros; apply cleared_wipes].
  rewrite part000_handler_eq, Hv, Hm.
  change (default VUndefined (last [])) with VUndefined.
  rewrite (getMOBDelta_without_vessel _ VUndefined eq_refl).
  now destruct w as [[mob os tr us] h].
Qed.

(** X13.  In both files a [navigation.position] whose value is [null]
    (or otherwise falsy), handled while an event is active, is offered
    to the track like any other and makes the handler publish the five
    nulls: the stored MOB position is overwritten with [null], and the
    MOB delta computed from then on is the cleared one, whatever the
    vessel position. *)
Theorem falsy_position_wipes (vr : variant) (v : value) (w : world) :
  ToBoolean v = false ->
  ToBoolean (mobNotification (fst w)) = true ->
  on_position vr (position_delta v) w
  = (Returned tt,
     (fst (with_track (recordSample (capacity vr) v (clock (snd w))
                                    (track (fst w))) w),
      publish cleared_delta (snd w)))
  /\ (forall vessel now,
        getMOBDelta (at_time now (publish cleared_delta (snd w))) vessel
        = Returned cleared_delta).
Proof.
  intros Hv Hm. split; [|intros; apply cleared_wipes].
  destruct vr; simpl on_position.
  - rewrite index_handler_eq. simpl. unfold index_step.
    now rewrite (getMOBDelta_without_vessel _ v Hv).
  - rewrite part000_handler_eq, Hm. simpl.
    now rewrite (getMOBDelta_without_vessel _ v Hv).
Qed.

Lemma plugin_stop_closes_notifications w :
  Inv w ->
  filter (on_feed NotificationsMob) (subs (snd (snd (plugin_stop w)))) = [].
Proof.
  intros Hw. rewrite plugin_stop_run. simpl. rewrite close_all_subs.
  apply elem_of_nil_inv.
  intros s [Hn [Hs Hin]%list_elem_of_filter]%list_elem_of_filter.
  apply Hs. now apply (inv_notif w Hw).
Qed.

Lemma run_unheard vr ds : forall w,
  filter (on_feed NotificationsMob) (subs (snd w)) = [] ->
  fst (run vr (map notified ds) w) = fst w
  /\ published (snd (run vr (map notified ds) w)) = published (snd w)
  /\ subs (snd (run vr (map notified ds) w)) = subs (snd w)
  /\ doc (snd (run vr (map notified ds) w)) = doc (snd w).
Proof.
  induction ds as [|[now d] ds IH]; intros w H; simpl; [tauto|].
  rewrite deliver_unheard by exact H. simpl.
  destruct (IH (fst w, at_time now (snd w)) H) as (-> & -> & -> & ->). tauto.
Qed.

(** X10.  From any world the engine can reach, after [plugin.stop] no
    notification delta is heard any more: whatever notifications the
    host observes, the plugin's variables, the open subscriptions, the
    document and what has been published stay as [plugin.stop] left
    them.  An event that was active stays active, with its watch. *)
Theorem plugin_stop_deafens (vr : variant) (es : list event)
    (ds : list (Z * delta)) :
  let w := snd (plugin_stop (run vr es init)) in
  let w' := run vr (map notified ds) w in
  fst w' = fst w
  /\ published (snd w') = published (snd w)
  /\ subs (snd w') = subs (snd w)
  /\ doc (snd w') = doc (snd w).
Proof.
  intros w w'. apply run_unheard.
  apply plugin_stop_closes_notifications, Inv_run, Inv_init.
Qed.

(** X12.  A heading that is [null] counts as defined
    ([typeof null] is ['object']): with a GPS offset in the document,
    [computeBowLocation] moves the position by that offset along the
    bearing 0, due north, whatever the course of the vessel. *)
Theorem null_heading_points_north (app : host) (vessel : value) :
  getSelfPath app "sensors.gps.fromBow.value" <> VUndefined ->
  computeBowLocation app vessel VNull
  = (point ← computeDestinationPoint vessel
               (getSelfPath app "sensors.gps.fromBow.value") (VNum (Fin 0));
     mret (VObj point)).
Proof.
  intros H. unfold computeBowLocation. simpl.
  destruct (getSelfPath app "sensors.gps.fromBow.value"); try congruence;
    reflexivity.
Qed.

End PositionHandlers.

Lemma part000_delta_without_position_witness :
  on_position_part000 (RT := meridian)
    (Delta (Some [ Update (Some [ PV "navigation.headingTrue" (VNum (Fin 1)) ]) ]))
    (tracking Part000)
  = (Returned tt,
     (fst (tracking Part000), publish cleared_delta (snd (tracking Part000)))).
Proof.
  exact (proj1 (part000_delta_without_position (RT := meridian)
                  (Delta (Some [ Update (Some
                     [ PV "navigation.headingTrue" (VNum (Fin 1)) ]) ]))
                  (tracking Part000) eq_refl eq_refl)).
Defined.

Lemma falsy_position_wipes_witness :
  on_position (RT := meridian) IndexJs (position_delta VNull) (tracking IndexJs)
  = (Returned tt,
     (fst (with_track [Sample VNull 1000] (tracking IndexJs)),
      publish cleared_delta (snd (tracking IndexJs)))).
Proof.
  exact (proj1 (falsy_position_wipes (RT := meridian) IndexJs VNull
                  (tracking IndexJs) eq_refl eq_refl)).
Defined.

Lemma null_heading_points_north_witness :
  computeBowLocation (RT := meridian)
    (snd (run (RT := meridian) IndexJs
            [ Put "sensors.gps.fromBow.value" (VNum (Fin 5)) ] init))
    position_10_20 VNull
  = Returned (VObj [("latitude", VNum (Fin (222391 # 22239)));
                    ("longitude", VNum (Fin 20))]).
Proof.
  rewrite (null_heading_points_north (RT := meridian)); [reflexivity | discriminate].
Defined.

(** ** The waypoint plugin *)

Ltac run_w :=
  unfold Waypoint.and_then, Waypoint.has_property, Waypoint.get_checked,
         Waypoint.read, Waypoint.throw, Waypoint.set_mobNotification,
         Waypoint.set_nextPoint, Waypoint.invoke, Waypoint.invoke_then,
         Waypoint.uuidv4, Waypoint.new_Date, Waypoint.modify,
         mbind, Waypoint.W_bind, mret, Waypoint.W_ret in *;
  simpl in *.

Section WaypointPlugin.
Variable uuid : nat -> string.
Variable toISOString : Z -> string.

Abbreviation on_value := (Waypoint.on_notification_value uuid toISOString).

Lemma requested_eq (props : list (string * value)) (w : Waypoint.world) :
  ToBoolean (Waypoint.mobNotification (fst w)) = false ->
  assoc "state" props = Some (VStr "emergency") ->
  nullish (get (VObj props) "data") = false ->
  nullish (get (get (VObj props) "data") "position") = false ->
  on_value (PV "notifications.mob" (VObj props)) w
  = (Returned tt,
     (Waypoint.Plugin (VObj props) (Waypoint.nextPoint (fst w)),
      Waypoint.Host
        (Waypoint.calls (snd w)
         ++ [ Waypoint.SetResource "waypoints" (uuid (Waypoint.uuids (snd w)))
                (Waypoint.body toISOString (Waypoint.clock (snd w))
                   (uuid (Waypoint.uuids (snd w)))
                   (get (get (get (VObj props) "data") "position") "longitude")
                   (get (get (get (VObj props) "data") "position") "latitude")) ])
        (Waypoint.awaiting (snd w)
         ++ [ Waypoint.ResourceStored (uuid (Waypoint.uuids (snd w))) ])
        (S (Waypoint.uuids (snd w)))
        (Waypoint.clock (snd w)))).
Proof.
  destruct w as [[mob np] [cs aw n ck]]. simpl.
  intros Hidle Hst Hdata Hpos.
  unfold Waypoint.on_notification_value. simpl. run_w. now decided.
Qed.

Lemma restored_eq (props : list (string * value)) (w : Waypoint.world) :
  ToBoolean (Waypoint.mobNotification (fst w)) = true ->
  assoc "state" props = Some (VStr "normal") ->
  on_value (PV "notifications.mob" (VObj props)) w
  = (Returned tt,
     (Waypoint.Plugin VNull (Waypoint.nextPoint (fst w)),
      Waypoint.Host
        (Waypoint.calls (snd w)
         ++ [ if ToBoolean (Waypoint.nextPoint (fst w))
              then Waypoint.SetDestination (Waypoint.nextPoint (fst w))
              else Waypoint.ClearDestination ])
        (Waypoint.awaiting (snd w)) (Waypoint.uuids (snd w))
        (Waypoint.clock (snd w)))).
Proof.
  destruct w as [[mob np] [cs aw n ck]]. simpl. intros Hm Hst.
  unfold Waypoint.on_notification_value. simpl. run_w.
  destruct (ToBoolean np) eqn:Enp; now decided.
Qed.

Lemma fulfil_stored p cs aw id n ck r :
  Waypoint.fulfil (length aw) r
    (p, Waypoint.Host cs (aw ++ [Waypoint.ResourceStored id]) n ck)
  = (Returned tt,
     (p, Waypoint.Host (cs ++ [Waypoint.GetCourse])
                       (aw ++ [Waypoint.CourseRead id]) n ck)).
Proof.
  unfold Waypoint.fulfil. simpl.
  rewrite list_lookup_middle by reflexivity.
  rewrite delete_middle, app_nil_r. reflexivity.
Qed.

Lemma fulfil_course m np cs aw id n ck course :
  nullish course = false ->
  Waypoint.fulfil (length aw) course
    (Waypoint.Plugin m np, Waypoint.Host cs (aw ++ [Waypoint.CourseRead id]) n ck)
  = (Returned tt,
     (Waypoint.Plugin m (get course "nextPoint"),
      Waypoint.Host (cs ++ [Waypoint.SetDestination (Waypoint.href id)]) aw n ck)).
Proof.
  intros H. unfold Waypoint.fulfil. simpl.
  rewrite list_lookup_middle by reflexivity.
  rewrite delete_middle, app_nil_r.
  unfold Waypoint.course_read. run_w. rewrite H. reflexivity.
Qed.

(** X14.  An emergency that carries a position, handled while no event
    is active, returns normally: it keeps the value as
    [mobNotification], takes one identifier from [uuidv4] and asks the
    host once to store the waypoint of that identifier, whose
    coordinates are the longitude and then the latitude of the
    position; the destination is not changed yet and [nextPoint] is
    kept. *)
Theorem waypoint_requested (props : list (string * value)) (w : Waypoint.world) :
  ToBoolean (Waypoint.mobNotification (fst w)) = false ->
  assoc "state" props = Some (VStr "emergency") ->
  nullish (get (VObj props) "data") = false ->
  nullish (get (get (VObj props) "data") "position") = false ->
  let pos := get (get (VObj props) "data") "position" in
  let id := uuid (Waypoint.uuids (snd w)) in
  on_value (PV "notifications.mob" (VObj props)) w
  = (Returned tt,
     (Waypoint.Plugin (VObj props) (Waypoint.nextPoint (fst w)),
      Waypoint.Host
        (Waypoint.calls (snd w)
         ++ [ Waypoint.SetResource "waypoints" id
                (Waypoint.body toISOString (Waypoint.clock (snd w)) id
                   (get pos "longitude") (get pos "latitude")) ])
        (Waypoint.awaiting (snd w) ++ [ Waypoint.ResourceStored id ])
        (S (Waypoint.uuids (snd w)))
        (Waypoint.clock (snd w)))).
Proof.
  destruct w as [[mob np] [cs aw n ck]]. simpl.
  intros Hidle Hst Hdata Hpos.
  unfold Waypoint.on_notification_value. simpl. run_w. now decided.
Qed.

(** X15.  An emergency handled while an event is active, and a normal
    handled while none is, change nothing: no second waypoint is
    requested and the destination is not touched. *)
Theorem waypoint_guards (props : list (string * value)) (w : Waypoint.world) :
  (ToBoolean (Waypoint.mobNotification (fst w)) = true ->
   assoc "state" props = Some (VStr "emergency") ->
   on_value (PV "notifications.mob" (VObj props)) w = (Returned tt, w))
  /\ (ToBoolean (Waypoint.mobNotification (fst w)) = false ->
      assoc "state" props = Some (VStr "normal") ->
      on_value (PV "notifications.mob" (VObj props)) w = (Returned tt, w)).
Proof.
  destruct w as [[mob np] [cs aw n ck]]. simpl.
  split; intros Hm Hst; unfold Waypoint.on_notification_value; simpl; run_w;
    now decided.
Qed.

(** X16.  A normal handled while an event is active gives the
    destination back: to [nextPoint] if one is known, by clearing the
    destination otherwise; [mobNotification] becomes [null], while
    [nextPoint] and the promises that are pending are kept. *)
Theorem normal_restores_destination (props : list (string * value))
    (w : Waypoint.world) :
  ToBoolean (Waypoint.mobNotification (fst w)) = true ->
  assoc "state" props = Some (VStr "normal") ->
  on_value (PV "notifications.mob" (VObj props)) w
  = (Returned tt,
     (Waypoint.Plugin VNull (Waypoint.nextPoint (fst w)),
      Waypoint.Host
        (Waypoint.calls (snd w)
         ++ [ if ToBoolean (Waypoint.nextPoint (fst w))
              then Waypoint.SetDestination (Waypoint.nextPoint (fst w))
              else Waypoint.ClearDestination ])
        (Waypoint.awaiting (snd w)) (Waypoint.uuids (snd w))
        (Waypoint.clock (snd w)))).
Proof.
  destruct w as [[mob np] [cs aw n ck]]. simpl. intros Hm Hst.
  unfold Waypoint.on_notification_value. simpl. run_w.
  destruct (ToBoolean np) eqn:Enp; now decided.
Qed.

(** X17.  An emergency without [data], or whose [data] has no
    position, handled while no event is active, raises a TypeError
    after [mobNotification] has been set and an identifier taken: no
    waypoint is requested, and every later emergency is ignored. *)
Theorem waypoint_without_position (props : list (string * value))
    (w : Waypoint.world) :
  ToBoolean (Waypoint.mobNotification (fst w)) = false ->
  assoc "state" props = Some (VStr "emergency") ->
  nullish (get (VObj props) "data") = true
  \/ nullish (get (get (VObj props) "data") "position") = true ->
  let w' := (Waypoint.Plugin (VObj props) (Waypoint.nextPoint (fst w)),
             Waypoint.Host (Waypoint.calls (snd w)) (Waypoint.awaiting (snd w))
                           (S (Waypoint.uuids (snd w))) (Waypoint.clock (snd w))) in
  on_value (PV "notifications.mob" (VObj props)) w = (Raised TypeError, w')
  /\ (forall props',
        assoc "state" props' = Some (VStr "emergency") ->
        on_value (PV "notifications.mob" (VObj props')) w' = (Returned tt, w')).
Proof.
  destruct w as [[mob np] [cs aw n ck]]. simpl.
  intros Hidle Hst Hbad. split.
  - unfold Waypoint.on_notification_value. simpl. run_w.
    destruct (nullish (default VUndefined (assoc "data" props))) eqn:Ed;
      [now decided|].
    destruct Hbad as [Hbad | Hbad]; [discriminate|]. now decided.
  - intros props' Hst'.
    unfold Waypoint.on_notification_value. simpl. run_w. now decided.
Qed.

(** X18.  The redirection and its way back.  After an emergency with a
    position, once the host has stored the waypoint and told the
    course, the destination is the waypoint of the person overboard
    and [nextPoint] is the next point of that course; the normal that
    follows sets the destination back to that point, or clears the
    destination if the course had none.  The host has then been called
    four times, in this order, and no promise is left. *)
Theorem redirect_and_back (props props' : list (string * value))
    (stored course : value) (w : Waypoint.world) :
  ToBoolean (Waypoint.mobNotification (fst w)) = false ->
  assoc "state" props = Some (VStr "emergency") ->
  nullish (get (VObj props) "data") = false ->
  nullish (get (get (VObj props) "data") "position") = false ->
  assoc "state" props' = Some (VStr "normal") ->
  nullish course = false ->
  let n := length (Waypoint.awaiting (snd w)) in
  let id := uuid (Waypoint.uuids (snd w)) in
  let pos := get (get (VObj props) "data") "position" in
  let w1 := snd (on_value (PV "notifications.mob" (VObj props)) w) in
  let w2 := snd (Waypoint.fulfil n stored w1) in
  let w3 := snd (Waypoint.fulfil n course w2) in
  let w4 := snd (on_value (PV "notifications.mob" (VObj props')) w3) in
  fst w3 = Waypoint.Plugin (VObj props) (get course "nextPoint")
  /\ fst w4 = Waypoint.Plugin VNull (get course "nextPoint")
  /\ Waypoint.calls (snd w4)
     = Waypoint.calls (snd w)
       ++ [ Waypoint.SetResource "waypoints" id
              (Waypoint.body toISOString (Waypoint.clock (snd w)) id
                 (get pos "longitude") (get pos "latitude"));
            Waypoint.GetCourse;
            Waypoint.SetDestination (Waypoint.href id);
            if ToBoolean (get course "nextPoint")
            then Waypoint.SetDestination (get course "nextPoint")
            else Waypoint.ClearDestination ]
  /\ Waypoint.awaiting (snd w4) = Waypoint.awaiting (snd w).
Proof.
  intros Hidle Hst Hdata Hpos Hst' Hc n id pos w1 w2 w3 w4.
  subst w4 w3 w2 w1 n id pos.
  rewrite (requested_eq props w) by assumption. cbn [snd].
  rewrite fulfil_stored. cbn [snd].
  rewrite fulfil_course by assumption. cbn [snd fst].
  rewrite restored_eq; [|reflexivity | exact Hst'].
  cbn [snd fst Waypoint.calls Waypoint.awaiting Waypoint.nextPoint].
  rewrite <- !app_assoc. simpl. repeat split.
Qed.

(** X19.  The callbacks do not look at [mobNotification].  When the
    normal arrives before the host has stored the waypoint and told
    the course, it gives the destination back to the [nextPoint] of
    before (or clears it); the callbacks that run afterwards still make
    the waypoint of the person overboard the destination and set
    [nextPoint], although no event is active any more. *)
Theorem late_redirect (props props' : list (string * value))
    (stored course : value) (w : Waypoint.world) :
  ToBoolean (Waypoint.mobNotification (fst w)) = false ->
  assoc "state" props = Some (VStr "emergency") ->
  nullish (get (VObj props) "data") = false ->
  nullish (get (get (VObj props) "data") "position") = false ->
  assoc "state" props' = Some (VStr "normal") ->
  nullish course = false ->
  let n := length (Waypoint.awaiting (snd w)) in
  let id := uuid (Waypoint.uuids (snd w)) in
  let pos := get (get (VObj props) "data") "position" in
  let w1 := snd (on_value (PV "notifications.mob" (VObj props)) w) in
  let w2 := snd (on_value (PV "notifications.mob" (VObj props')) w1) in
  let w3 := snd (Waypoint.fulfil n stored w2) in
  let w4 := snd (Waypoint.fulfil n course w3) in
  fst w2 = Waypoint.Plugin VNull (Waypoint.nextPoint (fst w))
  /\ fst w4 = Waypoint.Plugin VNull (get course "nextPoint")
  /\ Waypoint.calls (snd w4)
     = Waypoint.calls (snd w)
       ++ [ Waypoint.SetResource "waypoints" id
              (Waypoint.body toISOString (Waypoint.clock (snd w)) id
                 (get pos "longitude") (get pos "latitude"));
            if ToBoolean (Waypoint.nextPoint (fst w))
            then Waypoint.SetDestination (Waypoint.nextPoint (fst w))
            else Waypoint.ClearDestination;
            Waypoint.GetCourse;
            Waypoint.SetDestination (Waypoint.href id) ].
Proof.
  intros Hidle Hst Hdata Hpos Hst' Hc n id pos w1 w2 w3 w4.
  subst w4 w3 w2 w1 n id pos.
  rewrite (requested_eq props w) by assumption. cbn [snd].
  rewrite restored_eq; [|reflexivity | exact Hst'].
  cbn [snd fst Waypoint.calls Waypoint.awaiting Waypoint.nextPoint
       Waypoint.uuids Waypoint.clock].
  rewrite fulfil_stored. cbn [snd].
  rewrite fulfil_course by assumption. cbn [snd fst Waypoint.calls].
  rewrite <- !app_assoc. simpl. repeat split.
Qed.

End WaypointPlugin.

Lemma waypoint_requested_witness :
  Waypoint.calls (snd redirecting)
  = [ Waypoint.SetResource "waypoints" (some_uuid 0)
        (Waypoint.body some_iso 0 (some_uuid 0) (VNum (Fin 20)) (VNum (Fin 10))) ]
  /\ Waypoint.awaiting (snd redirecting) = [ Waypoint.ResourceStored (some_uuid 0) ].
Proof.
  unfold redirecting, emergency_at.
  rewrite (waypoint_requested some_uuid some_iso
             [("state", VStr "emergency"); ("data", VObj [("position", position_10_20)])]
             Waypoint.init eq_refl eq_refl eq_refl eq_refl).
  split; reflexivity.
Defined.

Lemma waypoint_guards_witness :
  Waypoint.on_notification_value some_uuid some_iso
    (PV "notifications.mob" (emergency_at position_10_20)) redirecting
  = (Returned tt, redirecting)
  /\ Waypoint.on_notification_value some_uuid some_iso
       (PV "notifications.mob" (VObj [("state", VStr "normal")])) Waypoint.init
     = (Returned tt, Waypoint.init).
Proof.
  split.
  - apply (proj1 (waypoint_guards some_uuid some_iso
                    [("state", VStr "emergency");
                     ("data", VObj [("position", position_10_20)])]
                    redirecting)); reflexivity.
  - apply (proj2 (waypoint_guards some_uuid some_iso
                    [("state", VStr "normal")] Waypoint.init)); reflexivity.
Defined.

Lemma normal_restores_destination_witness :
  Waypoint.calls (snd (snd (Waypoint.on_notification_value some_uuid some_iso
     (PV "notifications.mob" (VObj [("state", VStr "normal")])) redirecting)))
  = Waypoint.calls (snd redirecting) ++ [ Waypoint.ClearDestination ].
Proof.
  rewrite (normal_restores_destination some_uuid some_iso
             [("state", VStr "normal")] redirecting eq_refl eq_refl).
  reflexivity.
Defined.

Lemma waypoint_without_position_witness :
  fst (Waypoint.on_notification_value some_uuid some_iso
         (PV "notifications.mob" (VObj [("state", VStr "emergency"); ("data", VObj [])]))
         Waypoint.init)
  = Raised TypeError.
Proof.
  destruct (waypoint_without_position some_uuid some_iso
              [("state", VStr "emergency"); ("data", VObj [])] Waypoint.init
              eq_refl eq_refl (or_intror eq_refl))
    as [H _].
  rewrite H. reflexivity.
Defined.

Lemma redirect_and_back_witness :
  let course := VObj [("nextPoint", VObj [("href", VStr "/resources/waypoints/home")])] in
  let w3 := snd (Waypoint.fulfil 0 course
                   (snd (Waypoint.fulfil 0 VUndefined redirecting))) in
  Waypoint.calls (snd (snd (Waypoint.on_notification_value some_uuid some_iso
     (PV "notifications.mob" (VObj [("state", VStr "normal")])) w3)))
  = [ Waypoint.SetResource "waypoints" (some_uuid 0)
        (Waypoint.body some_iso 0 (some_uuid 0) (VNum (Fin 20)) (VNum (Fin 10)));
      Waypoint.GetCourse;
      Waypoint.SetDestination (Waypoint.href (some_uuid 0));
      Waypoint.SetDestination (VObj [("href", VStr "/resources/waypoints/home")]) ].
Proof.
  intros course w3.
  destruct (redirect_and_back some_uuid some_iso
              [("state", VStr "emergency"); ("data", VObj [("position", position_10_20)])]
              [("state", VStr "normal")] VUndefined course Waypoint.init
              eq_refl eq_refl eq_refl eq_refl eq_refl eq_refl)
    as (_ & _ & H & _).
  exact H.
Defined.

Lemma late_redirect_witness :
  let course := VObj [("nextPoint", VNull)] in
  let w2 := snd (Waypoint.on_notification_value some_uuid some_iso
                   (PV "notifications.mob" (VObj [("state", VStr "normal")]))
                   redirecting) in
  let w4 := snd (Waypoint.fulfil 0 course (snd (Waypoint.fulfil 0 VUndefined w2))) in
  fst w4 = Waypoint.Plugin VNull VNull
  /\ Waypoint.calls (snd w4)
     = [ Waypoint.SetResource "waypoints" (some_uuid 0)
           (Waypoint.body some_iso 0 (some_uuid 0) (VNum (Fin 20)) (VNum (Fin 10)));
         Waypoint.ClearDestination;
         Waypoint.GetCourse;
         Waypoint.SetDestination (Waypoint.href (some_uuid 0)) ].
Proof.
  intros course w2 w4.
  destruct (late_redirect some_uuid some_iso
              [("state", VStr "emergency"); ("data", VObj [("position", position_10_20)])]
              [("state", VStr "normal")] VUndefined course Waypoint.init
              eq_refl eq_refl eq_refl eq_refl eq_refl eq_refl)
    as (_ & H2 & H3).
  split; [exact H2 | exact H3].
Defined.

Lemma on_position_index_run_witness :
  on_position_index (RT := meridian)
    (Delta (Some [ Update (Some [ PV "navigation.headingTrue" (VNum (Fin 1)) ]) ]))
    (tracking IndexJs)
  = (Returned tt, tracking IndexJs)
  /\ on_position_index (RT := meridian) (position_delta (VObj [])) (tracking IndexJs)
     = (Raised TypeError, tracking IndexJs).
Proof.
  split.
  - destruct (on_position_index_run (RT := meridian)
                (Delta (Some [ Update (Some
                   [ PV "navigation.headingTrue" (VNum (Fin 1)) ]) ]))
                (tracking IndexJs))
      as (_ & _ & _ & _ & H).
    apply H. reflexivity.
  - destruct (on_position_index_run (RT := meridian) (position_delta (VObj []))
                (tracking IndexJs))
      as (H & _).
    rewrite H. reflexivity.
Defined.

(** ** The MOB position while tracking *)

Section Target.
Context `{RT : Runtime}.

Lemma publish_truthy_keeps (h : host) (vessel : value) (d : delta) (p : string) :
  ToBoolean vessel = true ->
  ToBoolean (getSelfPath h "navigation.mob.position.value") = true ->
  getMOBDelta h vessel = Returned d ->
  p <> "navigation.mob.elapsed.value" ->
  p <> "navigation.mob.distance.value" ->
  p <> "navigation.mob.bearingTrue.value" ->
  getSelfPath (publish d h) p = getSelfPath h p.
Proof.
  intros Hv Hm Hd H1 H2 H3.
  unfold getMOBDelta in Hd. rewrite Hv, Hm in Hd. simpl in Hd.
  destruct (computeBowLocation h vessel _) as [bow|]; [|discriminate].
  simpl in Hd.
  destruct (getRhumbLineBearing bow _) as [rhumb|]; [|discriminate].
  simpl in Hd.
  destruct (calc_distance _ _ _ _) as [distance|]; [|discriminate].
  simpl in Hd. injection Hd as <-.
  unfold getSelfPath, publish, store_delta, store_values. simpl.
  rewrite lookup_insert_ne by (intros E; apply H3; symmetry; exact E).
  rewrite lookup_insert_ne by (intros E; apply H2; symmetry; exact E).
  now rewrite lookup_insert_ne by (intros E; apply H1; symmetry; exact E).
Qed.

Lemma index_run_keeps (p : string) (vals : list value) : forall w,
  p = "navigation.mob.position.value" \/ p = "navigation.mob.time.value" ->
  Forall (fun v => ToBoolean v = true) vals ->
  ToBoolean (getSelfPath (snd w) "navigation.mob.position.value") = true ->
  getSelfPath (snd (snd (index_run vals w))) "navigation.mob.position.value"
    = getSelfPath (snd w) "navigation.mob.position.value"
  /\ getSelfPath (snd (snd (index_run vals w))) p = getSelfPath (snd w) p.
Proof.
  intros w Hp Hall. revert w. induction Hall as [|v vals Hv _ IH]; intros w Hm.
  - split; reflexivity.
  - change (index_run (v :: vals) w)
      with (match index_step v w with
            | (Returned _, w') => index_run vals w'
            | (Raised e, w') => (Raised e, w')
            end).
    unfold index_step.
    destruct (getMOBDelta (snd w) v) as [d|e] eqn:Ed; [|split; reflexivity].
    assert (Hpos : getSelfPath (publish d (snd w)) "navigation.mob.position.value"
                   = getSelfPath (snd w) "navigation.mob.position.value")
      by (apply (publish_truthy_keeps _ v); [assumption .. | discriminate
                                            | discriminate | discriminate]).
    assert (Hq : getSelfPath (publish d (snd w)) p = getSelfPath (snd w) p)
      by (apply (publish_truthy_keeps _ v); [assumption .. | | | ];
          destruct Hp as [-> | ->]; discriminate).
    cbv beta iota.
    match goal with
    | |- context [index_run vals ?w1] => destruct (IH w1) as [E1 E2]
    end.
    { change (ToBoolean (getSelfPath (publish d (snd w))
                           "navigation.mob.position.value") = true).
      now rewrite Hpos. }
    rewrite E1, E2. split; [exact Hpos | exact Hq].
Qed.

(** X20.  A delta of vessel positions that are all truthy, handled
    while a truthy MOB position is stored, leaves the MOB position and
    the MOB time of the document as they are, whether the handler
    returns or raises: what is published writes only the elapsed time,
    the distance and the bearing.  In src/unnamed/part_000 this asks
    for a position in the delta (X7).  (A falsy vessel position
    overwrites them, X13.) *)
Theorem mob_target_kept (vr : variant) (d : delta) (w : world) :
  Forall (fun v => ToBoolean v = true) (position_values d) ->
  (vr = Part000 -> position_values d <> []) ->
  ToBoolean (getSelfPath (snd w) "navigation.mob.position.value") = true ->
  getSelfPath (snd (snd (on_position vr d w))) "navigation.mob.position.value"
    = getSelfPath (snd w) "navigation.mob.position.value"
  /\ getSelfPath (snd (snd (on_position vr d w))) "navigation.mob.time.value"
     = getSelfPath (snd w) "navigation.mob.time.value".
Proof.
  intros Hall Hne Hm. destruct vr; simpl on_position.
  - rewrite index_handler_eq. split.
    + apply (index_run_keeps "navigation.mob.position.value"); auto.
    + apply (index_run_keeps "navigation.mob.time.value"); auto.
  - rewrite part000_handler_eq.
    destruct (ToBoolean (mobNotification (fst w))); [|split; reflexivity].
    destruct (getMOBDelta (snd w) _) as [md|e] eqn:Ed; [|split; reflexivity].
    assert (Hv : ToBoolean (default VUndefined (last (position_values d))) = true).
    { specialize (Hne eq_refl).
      destruct (last (position_values d)) as [v|] eqn:El.
      - simpl. rewrite Forall_forall in Hall. apply Hall.
        apply last_Some in El. destruct El as [l' ->].
        apply elem_of_app. right. apply list_elem_of_singleton. reflexivity.
      - apply last_None in El. contradiction. }
    simpl.
    split; apply (publish_truthy_keeps _ _ _ _ Hv Hm Ed); discriminate.
Qed.

End Target.

Lemma mob_target_kept_witness :
  getSelfPath
    (snd (snd (on_position (RT := meridian) IndexJs
                 (position_delta position_10_20) (tracking IndexJs))))
    "navigation.mob.position.value"
  = position_10_20
  /\ getSelfPath
       (snd (snd (on_position (RT := meridian) Part000
                    (position_delta position_10_20) (tracking Part000))))
       "navigation.mob.time.value"
     = VNum (Fin 1000).
Proof.
  assert (H : Forall (fun v => ToBoolean v = true) [position_10_20])
    by (repeat constructor).
  split.
  - exact (proj1 (mob_target_kept (RT := meridian) IndexJs
                    (position_delta position_10_20) (tracking IndexJs)
                    H (fun E => ltac:(discriminate E)) eq_refl)).
  - exact (proj2 (mob_target_kept (RT := meridian) Part000
                    (position_delta position_10_20) (tracking Part000)
                    H (fun _ => ltac:(discriminate)) eq_refl)).
Defined.
